(** * Verification of the catalog filter (mirror-config/v1alpha1)

    A shallow embedding of [mirrorFilter.FilterCatalog] and of the functions
    it calls, followed by the properties established about them.

    Modelling decisions, in the order in which the file meets them:

    - Go maps are stdpp [gmap]s, [sets.Set[string]] is [gset string].
    - The [*declcfg.DeclarativeConfig] handed to [FilterCatalog] is a pointer:
      the model keeps a store of catalog objects indexed by address, so that
      [filteredFBC = fbc] really aliases the input.
    - A [declcfg.Channel] or a [declcfg.Deprecation] copied by value keeps
      pointing to the same backing array of entries.  Entry arrays therefore
      live in a store of their own and the structs hold slice headers
      (address and length); [slices.DeleteFunc] rewrites the array in place.
    - The five top-level slices of a catalog are only ever reached through the
      catalog object; they are kept by value inside it, [None] being Go's
      [nil] slice and [Some l] a non-nil slice with elements [l].
    - [fmt.Errorf] values are kept symbolically: the format string, its
      string arguments and the wrapped error.
    - The semver library, the channel graph ([newChannel],
      [filterByVersionRange]) are collaborators of the engine; the engine is
      written over an interface for them. *)

From Stdlib Require Import String Ascii List Bool Arith Lia.
From Stdlib Require OrdersEx.
From stdpp Require Import base option list sorting gmap strings fin_maps pretty.

Local Open Scope string_scope.
Local Open Scope list_scope.
Local Open Scope nat_scope.

(** ** Errors *)

(** [Errorf fmt args cause] stands for
    [fmt.Errorf(fmt, args..., cause)]: [args] are the operands of the [%q] and
    [%s] verbs in order and [cause] the operand of the trailing [%v], if the
    format has one.  [LibraryError] is an error produced by a library the
    engine calls (JSON decoding, semver parsing). *)
#[warnings="-register-all"]
Inductive error : Type :=
| Errorf (format : string) (args : list string) (cause : option error)
| LibraryError (msg : string).

(** Go's [(T, error)] results. *)
Inductive result (A : Type) : Type :=
| Ok (a : A)
| Err (e : error).
Arguments Ok {A} a.
Arguments Err {A} e.

(** Whether a result is a value, and the value it holds (else [d]). *)
Definition isOk {A : Type} (r : result A) : bool :=
  match r with
  | Ok _ => true
  | Err _ => false
  end.

Definition orElse {A : Type} (r : result A) (d : A) : A :=
  match r with
  | Ok a => a
  | Err _ => d
  end.

(** ** Memory *)

(** Addresses of catalog objects and of entry arrays. *)
Abbreviation loc := positive (only parsing).

(** A slice header over an array of the entry stores.  Every slice the engine
    handles starts at the first cell of its array. *)
Record slice : Type := Slice { arr : loc; len : nat }.

(** Top-level slices, held by value: [None] is [nil]. *)
Definition elems {A : Type} (s : option (list A)) : list A := default [] s.

(** ** The catalog data model (package declcfg) *)

Module declcfg.

Definition SchemaPackage : string := "olm.package".
Definition SchemaChannel : string := "olm.channel".
Definition SchemaBundle : string := "olm.bundle".
Definition SchemaDeprecation : string := "olm.deprecations".

Record Package : Type := mkPackage {
  Package_Name : string;
  Package_DefaultChannel : string;
  Package_Description : string
}.

Record ChannelEntry : Type := mkChannelEntry {
  Entry_Name : string;
  Entry_Replaces : string;
  Entry_Skips : list string;
  Entry_SkipRange : string
}.

(** [Channel_Entries] is a slice header; [None] is the nil slice. *)
Record Channel : Type := mkChannel {
  Channel_Name : string;
  Channel_Package : string;
  Channel_Entries : option slice
}.

(** The raw JSON of a property, abstracted to what [json.Unmarshal] into a
    [property.Package] makes of it: a decoding error, or the decoded
    [packageName] and [version]. *)
Inductive RawMessage : Type :=
| InvalidJSON
| PackageJSON (packageName version : string).

Record Property : Type := mkProperty {
  Property_Type : string;
  Property_Value : RawMessage
}.

Record Bundle : Type := mkBundle {
  Bundle_Name : string;
  Bundle_Package : string;
  Bundle_Image : string;
  Bundle_Properties : list Property
}.

Record PackageScopedReference : Type := mkReference {
  Reference_Schema : string;
  Reference_Name : string
}.

Record DeprecationEntry : Type := mkDeprecationEntry {
  DeprecationEntry_Reference : PackageScopedReference;
  DeprecationEntry_Message : string
}.

Record Deprecation : Type := mkDeprecation {
  Deprecation_Package : string;
  Deprecation_Entries : option slice
}.

Record Meta : Type := mkMeta {
  Meta_Schema : string;
  Meta_Package : string;
  Meta_Name : string;
  Meta_Blob : string
}.

Record DeclarativeConfig : Type := mkDeclarativeConfig {
  Packages : option (list Package);
  Channels : option (list Channel);
  Bundles : option (list Bundle);
  Deprecations : option (list Deprecation);
  Others : option (list Meta)
}.

(** Zero values. *)
Definition zeroChannelEntry : ChannelEntry := mkChannelEntry "" "" [] "".
Definition zeroDeprecationEntry : DeprecationEntry :=
  mkDeprecationEntry (mkReference "" "") "".
Definition zeroDeclarativeConfig : DeclarativeConfig :=
  mkDeclarativeConfig None None None None None.

End declcfg.
Import declcfg.

(** [property.TypePackage]. *)
Definition TypePackage : string := "olm.package".

(** The three stores. *)
Record heap : Type := Heap {
  configs : gmap loc DeclarativeConfig;
  entries : gmap loc (list ChannelEntry);
  depEntries : gmap loc (list DeprecationEntry)
}.

(** Reading a slice: the first [len] cells of its array. *)
Definition readSlice {A : Type} (m : gmap loc (list A)) (s : option slice) : list A :=
  match s with
  | None => []
  | Some sl => take (len sl) (default [] (m !! arr sl))
  end.

(** [slices.DeleteFunc] (Go 1.22) on a slice of a store: when no element is
    to be deleted the slice is returned untouched; otherwise the kept
    elements are moved to the front of the same array, the cells between the
    new and the old length are zeroed and the header is shortened. *)
Definition DeleteFunc {A : Type} (zero : A) (del : A → bool)
    (s : option slice) (m : gmap loc (list A)) : option slice * gmap loc (list A) :=
  match s with
  | None => (None, m)
  | Some sl =>
      let a := default [] (m !! arr sl) in
      let xs := take (len sl) a in
      if forallb (λ x, negb (del x)) xs then (s, m)
      else
        let kept := List.filter (λ x, negb (del x)) xs in
        (Some (Slice (arr sl) (length kept)),
         <[arr sl := kept ++ replicate (length xs - length kept) zero ++ drop (len sl) a]> m)
  end.

(** [slices.DeleteFunc] on a slice held by value. *)
Definition DeleteFuncV {A : Type} (del : A → bool) (s : option (list A)) : option (list A) :=
  match s with
  | None => None
  | Some l => Some (List.filter (λ x, negb (del x)) l)
  end.

(** [append] on a slice held by value. *)
Definition append {A : Type} (s : option (list A)) (x : A) : option (list A) :=
  Some (elems s ++ [x]).

(** A channel with its entries read out of the store: what [newChannel]
    sees of the [declcfg.Channel] it is given. *)
Record ChannelView : Type := mkChannelView {
  View_Name : string;
  View_Package : string;
  View_Entries : list ChannelEntry
}.

Definition loadChannel (m : gmap loc (list ChannelEntry)) (ch : declcfg.Channel) : ChannelView :=
  mkChannelView (Channel_Name ch) (Channel_Package ch) (readSlice m (Channel_Entries ch)).

(** ** The result monad *)

Definition result_bind {A B : Type} (f : A → result B) (r : result A) : result B :=
  match r with
  | Ok a => f a
  | Err e => Err e
  end.

#[global] Instance result_mbind : MBind result := @result_bind.
#[global] Instance result_mret : MRet result := @Ok.

(** ** The filter configuration (package v1alpha1, configuration file) *)

Definition FilterAPIVersion : string := "olm.operatorframework.io/filter/mirror/v1alpha1".
Definition FilterKind : string := "FilterConfiguration".

Record Channel : Type := mkChannelFilter {
  Ch_Name : string;
  Ch_VersionRange : string
}.

Record SelectedBundle : Type := mkSelectedBundle {
  SelectedBundle_Name : string
}.

Record Package : Type := mkPackageFilter {
  Pkg_Name : string;
  Pkg_DefaultChannel : string;
  Pkg_VersionRange : string;
  Pkg_Channels : list Channel;
  Pkg_SelectedBundles : list SelectedBundle
}.

Record FilterConfiguration : Type := mkFilterConfiguration {
  APIVersion : string;
  Kind : string;
  Config_Packages : list Package
}.

(** Zero values, read when a map has no value for a key. *)
Definition zeroChannel : Channel := mkChannelFilter "" "".
Definition zeroPackage : Package := mkPackageFilter "" "" "" [] [].

(** ** The collaborators of the engine *)

(** The semver library (github.com/Masterminds/semver/v3) and the channel
    graph of this package (channel.go).  [head_Name c] is [c.head.Name]. *)
Class Library : Type := {
  Version : Type;
  Constraints : Type;
  StrictNewVersion : string → result Version;
  NewConstraint : string → result Constraints;
  channel : Type;
  newChannel : ChannelView → result channel;
  head_Name : channel → string;
  filterByVersionRange : channel → Constraints → gmap string Version → gset string
}.

(** ** The catalog index *)

Record operatorIndex `{Library} : Type := mkIndex {
  Index_Packages : gmap string declcfg.Package;
  Index_Channels : gmap string (list declcfg.Channel);
  Index_ChannelNames : gmap string (gset string);
  Index_ChannelEntries : gmap string (gmap string (gmap string ChannelEntry));
  Index_BundlesByPkgAndName : gmap string (gmap string Bundle);
  Index_BundleVersionsByPkgAndName : gmap string (gmap string Version)
}.
Arguments mkIndex {_} _ _ _ _ _ _.

(** ** The filter *)

Record filterOptions : Type := mkOptions { Full : bool }.

Definition FilterOption : Type := filterOptions → filterOptions.

Record mirrorFilter : Type := mkMirrorFilter {
  pkgConfigs : gmap string Package;
  chConfigs : gmap string (gmap string Channel);
  opts : filterOptions
}.

(** The logger is not modelled: [WithLogger] leaves the options as they are. *)
Definition WithLogger : FilterOption := λ o, o.

Definition InFull (full : bool) : FilterOption := λ _, mkOptions full.

Definition NewMirrorFilter (config : FilterConfiguration) (filterOpts : list FilterOption)
    : mirrorFilter :=
  let opts := fold_left (λ o opt, opt o) filterOpts (mkOptions false) in
  let '(pkgConfigs, chConfigs) :=
    fold_left
      (λ '(pkgConfigs, chConfigs) pkg,
         let pkgChannels := default ∅ (chConfigs !! Pkg_Name pkg) in
         let pkgChannels :=
           fold_left (λ pkgChannels ch, <[Ch_Name ch := ch]> pkgChannels)
                     (Pkg_Channels pkg) pkgChannels in
         (<[Pkg_Name pkg := pkg]> pkgConfigs, <[Pkg_Name pkg := pkgChannels]> chConfigs))
      (Config_Packages config) (∅, ∅) in
  mkMirrorFilter pkgConfigs chConfigs opts.

(** [f.pkgConfigs[name]] and [f.chConfigs[pkg][name]] read without the
    comma-ok form: the zero value when the key is missing. *)
Definition pkgConfigOf (f : mirrorFilter) (pkg : string) : Package :=
  default zeroPackage (pkgConfigs f !! pkg).

Definition chConfigOf (f : mirrorFilter) (pkg name : string) : Channel :=
  default zeroChannel (default ∅ (chConfigs f !! pkg) !! name).

(** ** Comparisons, sorting and searching *)

Definition compareChannels (a b : declcfg.Channel) : comparison :=
  match String.compare (Channel_Package a) (Channel_Package b) with
  | Eq => String.compare (Channel_Name a) (Channel_Name b)
  | c => c
  end.

Definition compareBundles (a b : Bundle) : comparison :=
  match String.compare (Bundle_Package a) (Bundle_Package b) with
  | Eq => String.compare (Bundle_Name a) (Bundle_Name b)
  | c => c
  end.

(** [slices.SortFunc]: a sort by [cmp]. *)
Definition SortFunc {A : Type} (cmp : A → A → comparison) (l : list A) : list A :=
  merge_sort (λ a b, cmp a b ≠ Gt) l.

(** [slices.BinarySearchFunc], by its contract on a sorted slice: the first
    position whose element does not compare below the target, and whether the
    element there compares equal to it. *)
Fixpoint BinarySearchFunc {E T : Type} (x : list E) (target : T)
    (cmp : E → T → comparison) : nat * bool :=
  match x with
  | [] => (0, false)
  | e :: x' =>
      match cmp e target with
      | Lt => let '(i, found) := BinarySearchFunc x' target cmp in (S i, found)
      | Eq => (0, true)
      | Gt => (0, false)
      end
  end.

Definition bundleNames (bundles : list SelectedBundle) : list string :=
  fold_left (λ bundleNames bundle, bundleNames ++ [SelectedBundle_Name bundle]) bundles [].

(** ** Loops *)

(** [for i := range s] with a body that may return an error: [n] iterations
    from index [i]; the first error ends the loop, with the state reached. *)
Fixpoint forRange {St : Type} (body : nat → St → St * option error)
    (i n : nat) (s : St) : St * option error :=
  match n with
  | 0 => (s, None)
  | S n' =>
      match body i s with
      | (s', None) => forRange body (S i) n' s'
      | (s', Some e) => (s', Some e)
      end
  end.

(** A loop whose body may fail, over the elements of a list. *)
Fixpoint foldResult {A B : Type} (f : B → A → result B) (l : list A) (b : B) : result B :=
  match l with
  | [] => Ok b
  | a :: l' =>
      match f b a with
      | Ok b' => foldResult f l' b'
      | Err e => Err e
      end
  end.

(** [s[i] = x] on a slice held by value. *)
Definition setAt {A : Type} (s : option (list A)) (i : nat) (x : A) : option (list A) :=
  match s with
  | None => None
  | Some l => Some (<[i := x]> l)
  end.

(** Field updates of a catalog object. *)
Definition setPackages (c : DeclarativeConfig) (v : option (list declcfg.Package)) :=
  mkDeclarativeConfig v (Channels c) (Bundles c) (Deprecations c) (Others c).
Definition setChannels (c : DeclarativeConfig) (v : option (list declcfg.Channel)) :=
  mkDeclarativeConfig (Packages c) v (Bundles c) (Deprecations c) (Others c).
Definition setBundles (c : DeclarativeConfig) (v : option (list Bundle)) :=
  mkDeclarativeConfig (Packages c) (Channels c) v (Deprecations c) (Others c).
Definition setDeprecations (c : DeclarativeConfig) (v : option (list Deprecation)) :=
  mkDeclarativeConfig (Packages c) (Channels c) (Bundles c) v (Others c).

Section Engine.

Context `{L : Library}.

(** ** getBundleVersion *)

Fixpoint getBundleVersionFrom (b : Bundle) (props : list Property) : result Version :=
  match props with
  | [] =>
      Err (Errorf "bundle %q in package %q has no package property"
                  [Bundle_Name b; Bundle_Package b] None)
  | p :: props' =>
      if decide (Property_Type p = TypePackage) then
        match Property_Value p with
        | InvalidJSON => Err (LibraryError "json.Unmarshal")
        | PackageJSON _ version => StrictNewVersion version
        end
      else getBundleVersionFrom b props'
  end.

Definition getBundleVersion (b : Bundle) : result Version :=
  getBundleVersionFrom b (Bundle_Properties b).

(** ** indexFromDeclCfg *)

Definition newOperatorIndex : operatorIndex := mkIndex ∅ ∅ ∅ ∅ ∅ ∅.

Definition indexPackage (index : operatorIndex) (p : declcfg.Package) : operatorIndex :=
  mkIndex (<[Package_Name p := p]> (Index_Packages index))
          (Index_Channels index) (Index_ChannelNames index) (Index_ChannelEntries index)
          (Index_BundlesByPkgAndName index) (Index_BundleVersionsByPkgAndName index).

Definition indexEntry (pkg name : string)
    (m : gmap string (gmap string (gmap string ChannelEntry))) (e : ChannelEntry)
    : gmap string (gmap string (gmap string ChannelEntry)) :=
  let byChannel := default ∅ (m !! pkg) in
  let byName := default ∅ (byChannel !! name) in
  <[pkg := <[name := <[Entry_Name e := e]> byName]> byChannel]> m.

Definition indexChannel (mem : gmap loc (list ChannelEntry))
    (index : operatorIndex) (c : declcfg.Channel) : operatorIndex :=
  let pkg := Channel_Package c in
  mkIndex (Index_Packages index)
          (<[pkg := default [] (Index_Channels index !! pkg) ++ [c]]> (Index_Channels index))
          (<[pkg := {[Channel_Name c]} ∪ default ∅ (Index_ChannelNames index !! pkg)]>
             (Index_ChannelNames index))
          (fold_left (indexEntry pkg (Channel_Name c))
                     (readSlice mem (Channel_Entries c)) (Index_ChannelEntries index))
          (Index_BundlesByPkgAndName index) (Index_BundleVersionsByPkgAndName index).

Definition indexBundle (index : operatorIndex) (b : Bundle) : result operatorIndex :=
  match getBundleVersion b with
  | Err err => Err err
  | Ok v =>
      let pkg := Bundle_Package b in
      let bundles := default ∅ (Index_BundlesByPkgAndName index !! pkg) in
      let bundles :=
        match bundles !! Bundle_Name b with
        | Some _ => bundles
        | None => <[Bundle_Name b := b]> bundles
        end in
      let bundleVersions := default ∅ (Index_BundleVersionsByPkgAndName index !! pkg) in
      Ok (mkIndex (Index_Packages index) (Index_Channels index)
                  (Index_ChannelNames index) (Index_ChannelEntries index)
                  (<[pkg := bundles]> (Index_BundlesByPkgAndName index))
                  (<[pkg := <[Bundle_Name b := v]> bundleVersions]>
                     (Index_BundleVersionsByPkgAndName index)))
  end.

Definition indexFromDeclCfg (mem : gmap loc (list ChannelEntry))
    (cfg : DeclarativeConfig) : result operatorIndex :=
  let index := fold_left indexPackage (elems (Packages cfg)) newOperatorIndex in
  let index := fold_left (indexChannel mem) (elems (Channels cfg)) index in
  foldResult indexBundle (elems (Bundles cfg)) index.

(** ** setDefaultChannel *)

(** The package is passed by pointer; the result is the package as the
    function leaves it, or the error. *)
Definition setDefaultChannel (pkg : declcfg.Package) (pkgConfig : Package)
    (channels : gset string) : result declcfg.Package :=
  if decide (Package_DefaultChannel pkg = "" ∧ Pkg_DefaultChannel pkgConfig = "") then
    Ok pkg
  else if decide (Pkg_DefaultChannel pkgConfig ≠ "") then
    if decide (Pkg_DefaultChannel pkgConfig ∈ channels) then
      Ok (mkPackage (Package_Name pkg) (Pkg_DefaultChannel pkgConfig)
                    (Package_Description pkg))
    else
      Err (Errorf "specified default channel override %q does not exist in the filtered output"
                  [Pkg_DefaultChannel pkgConfig] None)
  else if decide (Package_DefaultChannel pkg ∈ channels) then
    Ok pkg
  else
    Err (Errorf "the default channel %q was filtered out, a new default channel must be configured for this package"
                [Package_DefaultChannel pkg] None).

(** ** filterByPackageAndChannels *)

Definition nilIfEmpty {A : Type} (l : list A) : option (list A) :=
  match l with
  | [] => None
  | _ => Some l
  end.

Definition keepsPackage (f : mirrorFilter) (pkg : string) : bool :=
  bool_decide (is_Some (chConfigs f !! pkg)).

Definition keepsChannel (f : mirrorFilter) (ch : declcfg.Channel) : bool :=
  match chConfigs f !! Channel_Package ch with
  | Some chSet =>
      if decide (0 < size chSet) then bool_decide (is_Some (chSet !! Channel_Name ch))
      else true
  | None => false
  end.

Definition filterByPackageAndChannels (f : mirrorFilter) (fbc : DeclarativeConfig)
    : DeclarativeConfig :=
  mkDeclarativeConfig
    (Some (List.filter (λ pkg, keepsPackage f (Package_Name pkg)) (elems (Packages fbc))))
    (nilIfEmpty (List.filter (keepsChannel f) (elems (Channels fbc))))
    (nilIfEmpty (List.filter (λ bdl, keepsPackage f (Bundle_Package bdl)) (elems (Bundles fbc))))
    (nilIfEmpty (List.filter (λ d, keepsPackage f (Deprecation_Package d))
                             (elems (Deprecations fbc))))
    (nilIfEmpty (List.filter (λ meta, bool_decide (Meta_Package meta = "")
                                       || keepsPackage f (Meta_Package meta))
                             (elems (Others fbc)))).

End Engine.

(** ** The state of one call *)

(** What the body of [FilterCatalog] reads and writes: the catalog object
    [filteredFBC] points to, the index (whose channel lists
    [keepPackageDefaultChannel] sorts in place), the two entry stores and the
    [keepBundles] map. *)
Record state `{Library} : Type := mkState {
  filteredFBC : DeclarativeConfig;
  catalogIndex : operatorIndex;
  chanEntries : gmap loc (list ChannelEntry);
  deprEntries : gmap loc (list DeprecationEntry);
  keepBundles : gmap string (gset string)
}.
Arguments mkState {_} _ _ _ _ _.

Section Filter.

Context `{L : Library}.

Definition withFBC (s : state) (c : DeclarativeConfig) : state :=
  mkState c (catalogIndex s) (chanEntries s) (deprEntries s) (keepBundles s).

Definition withIndexChannels (s : state) (m : gmap string (list declcfg.Channel)) : state :=
  let index := catalogIndex s in
  mkState (filteredFBC s)
          (mkIndex (Index_Packages index) m (Index_ChannelNames index)
                   (Index_ChannelEntries index) (Index_BundlesByPkgAndName index)
                   (Index_BundleVersionsByPkgAndName index))
          (chanEntries s) (deprEntries s) (keepBundles s).

Definition withChanEntries (s : state) (m : gmap loc (list ChannelEntry)) : state :=
  mkState (filteredFBC s) (catalogIndex s) m (deprEntries s) (keepBundles s).

Definition withDeprEntries (s : state) (m : gmap loc (list DeprecationEntry)) : state :=
  mkState (filteredFBC s) (catalogIndex s) (chanEntries s) m (keepBundles s).

Definition withKeepBundles (s : state) (m : gmap string (gset string)) : state :=
  mkState (filteredFBC s) (catalogIndex s) (chanEntries s) (deprEntries s) m.

(** [keepBundles[pkg]] is created when missing, then [names] are added. *)
Definition keepMore (keep : gmap string (gset string)) (pkg : string) (names : gset string)
    : gmap string (gset string) :=
  <[pkg := default ∅ (keep !! pkg) ∪ names]> keep.

(** ** keepPackageDefaultChannel *)

Definition zeroCatalogChannel : declcfg.Channel := mkChannel "" "" None.

Definition keepPackageDefaultChannel (s : state) (pkg : declcfg.Package)
    : state * option error :=
  let defaultChan := mkChannel (Package_DefaultChannel pkg) (Package_Name pkg) None in
  let s := withIndexChannels s
             (alter (SortFunc compareChannels) (Package_Name pkg)
                    (Index_Channels (catalogIndex s))) in
  let channels := default [] (Index_Channels (catalogIndex s) !! Package_Name pkg) in
  let '(channelIndex, exists_) := BinarySearchFunc channels defaultChan compareChannels in
  let found := default zeroCatalogChannel (channels !! channelIndex) in
  let fbc := filteredFBC s in
  if exists_ then
    match Channels fbc with
    | None => (withFBC s (setChannels fbc (Some [found])), None)
    | Some l =>
        if decide (length channels = 0) then
          (withFBC s (setChannels fbc (append (Channels fbc) found)), None)
        else
          (withFBC s (setChannels fbc
             (DeleteFuncV
                (λ ch, if decide (Channel_Package ch = Package_Name pkg)
                       then bool_decide (Channel_Name ch ≠ Channel_Name found)
                       else false)
                (Channels fbc))), None)
    end
  else
    (s, Some (Errorf "default channel %s not found for package %s"
                     [Package_DefaultChannel pkg; Package_Name pkg] None)).

(** ** The loop over the packages (FilterCatalog, first loop) *)

Definition withDefaultChannel (p : declcfg.Package) (ch : string) : declcfg.Package :=
  mkPackage (Package_Name p) ch (Package_Description p).

Definition keepDefault (f : mirrorFilter) (s : state) (pkg : declcfg.Package)
    : state * option error :=
  match keepPackageDefaultChannel s pkg with
  | (s, Some err) =>
      (s, Some (Errorf "failure in filtering default channel for package %q: %v"
                       [Package_Name pkg] (Some err)))
  | (s, None) => (s, None)
  end.

Definition packageBody (f : mirrorFilter) (pkgIndex : nat) (s : state)
    : state * option error :=
  match elems (Packages (filteredFBC s)) !! pkgIndex with
  | None => (s, None)
  | Some pkg =>
      match pkgConfigs f !! Package_Name pkg with
      | Some pkgConfig =>
          match setDefaultChannel pkg pkgConfig
                  (default ∅ (Index_ChannelNames (catalogIndex s) !! Package_Name pkg)) with
          | Err err =>
              (s, Some (Errorf "invalid default channel configuration for package %q: %v"
                               [Package_Name pkg] (Some err)))
          | Ok pkg' =>
              let s := withFBC s
                (setPackages (filteredFBC s)
                   (setAt (Packages (filteredFBC s)) pkgIndex
                          (withDefaultChannel pkg (Package_DefaultChannel pkg')))) in
              if (bool_decide (length (Pkg_Channels pkgConfig) = 0) && negb (Full (opts f)))
                 && bool_decide (length (Pkg_SelectedBundles pkgConfig) = 0)
              then keepDefault f s pkg'
              else (s, None)
          end
      | None =>
          if negb (Full (opts f)) then keepDefault f s pkg else (s, None)
      end
  end.

Definition packagesLoop (f : mirrorFilter) (s : state) : state * option error :=
  forRange (packageBody f) 0 (length (elems (Packages (filteredFBC s)))) s.

End Filter.

Section Channels.

Context `{L : Library}.

(** ** filterChannelHead *)

(** The one-entry slice is a freshly allocated array. *)
Definition filterChannelHead (s : state) (ch : declcfg.Channel)
    : result (declcfg.Channel * string * gmap loc (list ChannelEntry)) :=
  match newChannel (loadChannel (chanEntries s) ch) with
  | Err err => Err err
  | Ok filteringChannel =>
      let headEntry :=
        default zeroChannelEntry
          (default ∅ (default ∅ (Index_ChannelEntries (catalogIndex s) !! Channel_Package ch)
                        !! Channel_Name ch)
             !! head_Name filteringChannel) in
      let a := fresh (dom (chanEntries s)) in
      Ok (mkChannel (Channel_Name ch) (Channel_Package ch) (Some (Slice a 1)),
          head_Name filteringChannel,
          <[a := [headEntry]]> (chanEntries s))
  end.

(** ** The loop over the channels (FilterCatalog, second loop) *)

(** The version range that applies to a channel: the one of its channel
    filter, else the one of its package filter. *)
Definition versionRangeOf (f : mirrorFilter) (ch : declcfg.Channel) : string :=
  let versionRange := Ch_VersionRange (chConfigOf f (Channel_Package ch) (Channel_Name ch)) in
  if bool_decide (versionRange = "")
     && bool_decide (Pkg_VersionRange (pkgConfigOf f (Channel_Package ch)) ≠ "")
  then Pkg_VersionRange (pkgConfigOf f (Channel_Package ch))
  else versionRange.

Definition selectedOf (f : mirrorFilter) (ch : declcfg.Channel) : list SelectedBundle :=
  Pkg_SelectedBundles (pkgConfigOf f (Channel_Package ch)).

(** [filteredFBC.Channels[channelIndex].Entries = slices.DeleteFunc(...)]. *)
Definition deleteEntries (s : state) (channelIndex : nat) (del : ChannelEntry → bool) : state :=
  match elems (Channels (filteredFBC s)) !! channelIndex with
  | None => s
  | Some cur =>
      let '(sl, mem) := DeleteFunc zeroChannelEntry del (Channel_Entries cur) (chanEntries s) in
      withChanEntries
        (withFBC s (setChannels (filteredFBC s)
           (setAt (Channels (filteredFBC s)) channelIndex
                  (mkChannel (Channel_Name cur) (Channel_Package cur) sl))))
        mem
  end.

Definition channelBody (f : mirrorFilter) (channelIndex : nat) (s : state)
    : state * option error :=
  match elems (Channels (filteredFBC s)) !! channelIndex with
  | None => (s, None)
  | Some ch =>
      let versionRange := versionRangeOf f ch in
      let selected := selectedOf f ch in
      if Full (opts f) && bool_decide (versionRange ≠ "") then
        (s, Some (Errorf "Full: true cannot be mixed with versionRange" [] None))
      else if Full (opts f) && bool_decide (0 < length selected) then
        (s, Some (Errorf "Full: true cannot be mixed with filtering by bundle selection" [] None))
      else if bool_decide (0 < length selected) && bool_decide (versionRange ≠ "") then
        (s, Some (Errorf "filtering by versionRange cannot be mixed with filtering by bundle selection"
                         [] None))
      else if bool_decide (0 < length selected) then
        let s := withKeepBundles s
                   (keepMore (keepBundles s) (Channel_Package ch)
                             (list_to_set (bundleNames selected))) in
        let s := deleteEntries s channelIndex
                   (λ e, negb (existsb (λ selectedEntry,
                                  bool_decide (Entry_Name e = SelectedBundle_Name selectedEntry))
                               selected)) in
        match newChannel (loadChannel (chanEntries s)
                 (default zeroCatalogChannel (elems (Channels (filteredFBC s)) !! channelIndex))) with
        | Err err =>
            (s, Some (Errorf "filtering on the selected bundles leads to invalidating channel %q for package %q: %v"
                             [Channel_Name ch; Channel_Package ch] (Some err)))
        | Ok _ => (s, None)
        end
      else if Full (opts f) then
        (withKeepBundles s
           (fold_left (λ keep entry, keepMore keep (Channel_Package ch) {[Entry_Name entry]})
                      (readSlice (chanEntries s) (Channel_Entries ch)) (keepBundles s)),
         None)
      else if bool_decide (versionRange ≠ "") then
        match NewConstraint versionRange with
        | Err err => (s, Some (Errorf "error parsing version range: %v" [] (Some err)))
        | Ok rangeConstraint =>
            match newChannel (loadChannel (chanEntries s) ch) with
            | Err err => (s, Some err)
            | Ok filteringChannel =>
                let keepEntries :=
                  filterByVersionRange filteringChannel rangeConstraint
                    (default ∅ (Index_BundleVersionsByPkgAndName (catalogIndex s)
                                  !! Channel_Package ch)) in
                if decide (size keepEntries = 0) then
                  (s, Some (Errorf "package %q channel %q has version range %q that results in an empty channel"
                                   [Channel_Package ch; Channel_Name ch; versionRange] None))
                else
                  let s := deleteEntries s channelIndex
                             (λ e, negb (bool_decide (Entry_Name e ∈ keepEntries))) in
                  (withKeepBundles s (keepMore (keepBundles s) (Channel_Package ch) keepEntries),
                   None)
            end
        end
      else
        match filterChannelHead s ch with
        | Err err =>
            (s, Some (Errorf "package %q channel %q unable to filter head of channel: %v"
                             [Channel_Package ch; Channel_Name ch] (Some err)))
        | Ok (filteredChannel, chHead, mem) =>
            let s := withChanEntries s mem in
            let s := withFBC s (setChannels (filteredFBC s)
                                  (setAt (Channels (filteredFBC s)) channelIndex filteredChannel)) in
            (withKeepBundles s (keepMore (keepBundles s) (Channel_Package ch) {[chHead]}), None)
        end
  end.

Definition channelsLoop (f : mirrorFilter) (s : state) : state * option error :=
  forRange (channelBody f) 0 (length (elems (Channels (filteredFBC s)))) s.

(** ** Bundles and deprecations (FilterCatalog, last block) *)

(** The bundles of [keepBundles] that the index knows, in the order in
    which the two nested [range] loops meet them. *)
Definition keptBundles (index : operatorIndex) (keep : gmap string (gset string))
    : list Bundle :=
  '(pkg, bundles) ← map_to_list keep;
  omap (λ b, default ∅ (Index_BundlesByPkgAndName index !! pkg) !! b) (elements bundles).

Definition deprecationDeleted (index : operatorIndex) (keep : gmap string (gset string))
    (pkg : string) (e : DeprecationEntry) : bool :=
  let ref := DeprecationEntry_Reference e in
  if decide (Reference_Schema ref = SchemaBundle) then
    match keep !! pkg with
    | Some bundles => negb (bool_decide (Reference_Name ref ∈ bundles))
    | None => false
    end
  else if decide (Reference_Schema ref = SchemaChannel) then
    match Index_ChannelNames index !! pkg with
    | Some channels => negb (bool_decide (Reference_Name ref ∈ channels))
    | None => false
    end
  else false.

Definition deprecationBody (i : nat) (s : state) : state * option error :=
  match elems (Deprecations (filteredFBC s)) !! i with
  | None => (s, None)
  | Some d =>
      let '(sl, mem) :=
        DeleteFunc zeroDeprecationEntry
          (deprecationDeleted (catalogIndex s) (keepBundles s) (Deprecation_Package d))
          (Deprecation_Entries d) (deprEntries s) in
      (withDeprEntries
         (withFBC s (setDeprecations (filteredFBC s)
            (setAt (Deprecations (filteredFBC s)) i
                   (mkDeprecation (Deprecation_Package d) sl))))
         mem, None)
  end.

Definition filterDeprecations (s : state) : state :=
  fst (forRange deprecationBody 0 (length (elems (Deprecations (filteredFBC s)))) s).

Definition rebuildBundles (s : state) : state :=
  if decide (0 < size (keepBundles s)) then
    filterDeprecations
      (withFBC s (setBundles (filteredFBC s)
         (Some (SortFunc compareBundles (keptBundles (catalogIndex s) (keepBundles s))))))
  else s.

(** ** FilterCatalog *)

Definition load (h : heap) (p : loc) : DeclarativeConfig :=
  default zeroDeclarativeConfig (configs h !! p).

(** The heap when the call returns: the object [out] holds the catalog of
    the state, and the entry stores are those of the state. *)
Definition commit (h : heap) (out : loc) (s : state) : heap :=
  Heap (<[out := filteredFBC s]> (configs h)) (chanEntries s) (deprEntries s).

(** [filteredFBC := &declcfg.DeclarativeConfig{}]. *)
Definition allocate (h : heap) : loc * heap :=
  let q := fresh (dom (configs h)) in
  (q, Heap (<[q := zeroDeclarativeConfig]> (configs h)) (entries h) (depEntries h)).

(** The object [filteredFBC] points to when the index is built, and what it
    holds: the new object filled by [filterByPackageAndChannels] when
    packages are configured, the input object itself otherwise. *)
Definition outputOf (f : mirrorFilter) (p q : loc) : loc :=
  if decide (size (pkgConfigs f) ≠ 0) then q else p.

Definition startCatalog (f : mirrorFilter) (h : heap) (p : loc) : DeclarativeConfig :=
  if decide (size (pkgConfigs f) ≠ 0) then filterByPackageAndChannels f (load h p)
  else load h p.

Definition FilterCatalog (f : mirrorFilter) (fbc : option loc) (h : heap)
    : (option loc * option error) * heap :=
  match fbc with
  | None => ((None, None), h)
  | Some p =>
      let '(q, h) := allocate h in
      let out := outputOf f p q in
      let start := startCatalog f h p in
      match indexFromDeclCfg (entries h) start with
      | Err err =>
          ((Some out, Some err), Heap (<[out := start]> (configs h)) (entries h) (depEntries h))
      | Ok index =>
          let s := mkState start index (entries h) (depEntries h) ∅ in
          match packagesLoop f s with
          | (s, Some err) => ((None, Some err), commit h out s)
          | (s, None) =>
              match channelsLoop f s with
              | (s, Some err) => ((None, Some err), commit h out s)
              | (s, None) => ((Some out, None), commit h out (rebuildBundles s))
              end
          end
      end
  end.

(** ** KeepMeta *)

Definition KeepMeta (f : mirrorFilter) (meta : Meta) : bool :=
  if decide (size (chConfigs f) = 0) then false
  else
    let packageName :=
      if decide (Meta_Schema meta = "olm.package") then Meta_Name meta else Meta_Package meta in
    bool_decide (is_Some (chConfigs f !! packageName)).

End Channels.

(** ** A library instance to run the engine *)

Module Reference.

(** [mmsemver.StrictNewVersion] on the fragment MAJOR.MINOR.PATCH: three
    dot-separated decimal numbers without leading zeros.  Pre-release and
    build metadata are not covered (they are rejected here). *)
Definition isDigit (c : ascii) : bool :=
  let n := nat_of_ascii c in Nat.leb 48 n && Nat.leb n 57.

Fixpoint splitDots (s : string) (cur : string) : list string :=
  match s with
  | EmptyString => [cur]
  | String c s' =>
      if Ascii.eqb c "."%char then cur :: splitDots s' EmptyString
      else splitDots s' (String.append cur (String c EmptyString))
  end.

Fixpoint digitsValue (s : string) (acc : nat) : option nat :=
  match s with
  | EmptyString => Some acc
  | String c s' =>
      if isDigit c then digitsValue s' (10 * acc + (nat_of_ascii c - 48)) else None
  end.

Definition numericPart (s : string) : option nat :=
  match s with
  | EmptyString => None
  | String c s' =>
      if Ascii.eqb c "0"%char && negb (String.eqb s' EmptyString) then None
      else digitsValue s 0
  end.

Definition strictVersion (s : string) : result (nat * nat * nat) :=
  match splitDots s EmptyString with
  | [a; b; c] =>
      match numericPart a, numericPart b, numericPart c with
      | Some x, Some y, Some z => Ok (x, y, z)
      | _, _, _ => Err (LibraryError "Invalid Semantic Version")
      end
  | _ => Err (LibraryError "Invalid Semantic Version")
  end.

(** Modelled from the spec: the channel graph of channel.go, which is not
    among the sources.  Section 4.3: the nodes of a channel are keyed by
    entry name; the head is the unique entry node with no in-edge, an
    in-edge being a [replaces] or a [skips] of some entry; the channel is
    refused with "no channel heads found" when there is none and with
    "multiple channel heads" when there are several. *)
Definition referenced (es : list ChannelEntry) (name : string) : bool :=
  existsb (λ e, bool_decide (Entry_Replaces e = name)
                || existsb (λ sk, bool_decide (sk = name)) (Entry_Skips e)) es.

Definition heads (es : list ChannelEntry) : list string :=
  remove_dups (List.filter (λ n, negb (referenced es n)) (map Entry_Name es)).

Record channelGraph : Type := mkChannelGraph { graph_head : string }.

Definition buildChannel (ch : ChannelView) : result channelGraph :=
  match heads (View_Entries ch) with
  | [] => Err (Errorf "no channel heads found" [] None)
  | [h] => Ok (mkChannelGraph h)
  | _ => Err (Errorf "multiple channel heads" [] None)
  end.

(** The instance knows no constraint syntax: every version range is
    refused by [NewConstraint], so that [filterByVersionRange] has nothing
    to be applied to.  It stands for the libraries on the runs that parse no
    range, which is all it is used for. *)
#[global] Instance library : Library := {|
  Version := nat * nat * nat;
  Constraints := Empty_set;
  StrictNewVersion := strictVersion;
  NewConstraint := λ _, Err (LibraryError "improper constraint");
  channel := channelGraph;
  newChannel := buildChannel;
  head_Name := graph_head;
  filterByVersionRange := λ _ (c : Empty_set), match c with end
|}.

End Reference.

(** ** What a caller sees of a catalog *)

Record DeprecationView : Type := mkDeprecationView {
  DView_Package : string;
  DView_Entries : list DeprecationEntry
}.

Record CatalogView : Type := mkCatalogView {
  V_Packages : list declcfg.Package;
  V_Channels : list ChannelView;
  V_Bundles : list Bundle;
  V_Deprecations : list DeprecationView;
  V_Others : list Meta
}.

Definition loadDeprecation (m : gmap loc (list DeprecationEntry)) (d : Deprecation)
    : DeprecationView :=
  mkDeprecationView (Deprecation_Package d) (readSlice m (Deprecation_Entries d)).

(** The catalog reached from the pointer [p]: its five sequences, with the
    entries of channels and deprecations read through their slices. *)
Definition viewOf (h : heap) (p : loc) : CatalogView :=
  let c := load h p in
  mkCatalogView (elems (Packages c))
                (map (loadChannel (entries h)) (elems (Channels c)))
                (elems (Bundles c))
                (map (loadDeprecation (depEntries h)) (elems (Deprecations c)))
                (elems (Others c)).

(** ** Validation of a configuration *)


Section Validation.

Context `{L : Library}.

Definition when (b : bool) (e : error) : list error := if b then [e] else [].

(** The operand of [%v] when [NewConstraint] refuses a range. *)
Definition constraintError (versionRange : string) : option error :=
  match NewConstraint versionRange with
  | Ok _ => None
  | Err err => Some err
  end.

Definition validateChannel (pkg : Package) (i : nat) (j : nat) (channel : Channel)
    : list error :=
  when (bool_decide (Ch_Name channel = ""))
       (Errorf "package %q at index [%d] is invalid: channel %q at index [%d] is invalid: name must be specified"
               [Pkg_Name pkg; pretty i; Ch_Name channel; pretty j] None)
  ++ when (bool_decide (Ch_VersionRange channel ≠ "") && bool_decide (Pkg_VersionRange pkg ≠ ""))
       (Errorf "package %q at index [%d] is invalid: package specifies a VersionRange, while channel %q at index [%d] equally specifies one: package.VersionRange and channel.VersionRange are exclusive"
               [Pkg_Name pkg; pretty i; Ch_Name channel; pretty j] None)
  ++ (if bool_decide (Ch_VersionRange channel ≠ "") then
        match constraintError (Ch_VersionRange channel) with
        | Some err =>
            [Errorf "package %q at index [%d] is invalid: channel %q at index [%d] is invalid: versionRange is not in valid semantic versionning format: %v"
                    [Pkg_Name pkg; pretty i; Ch_Name channel; pretty j] (Some err)]
        | None => []
        end
      else []).

Definition validatePackage (i : nat) (pkg : Package) : list error :=
  when (bool_decide (Pkg_Name pkg = ""))
       (Errorf "package %q at index [%d] is invalid: name must be specified"
               [Pkg_Name pkg; pretty i] None)
  ++ when (bool_decide (0 < length (Pkg_SelectedBundles pkg))
           && (bool_decide (0 < length (Pkg_Channels pkg))
               || bool_decide (Pkg_VersionRange pkg ≠ "")))
       (Errorf "package %q at index [%d] is invalid: mixing both filtering by bundles and filtering by channels or versionRange is not allowed"
               [Pkg_Name pkg; pretty i] None)
  ++ (if bool_decide (Pkg_VersionRange pkg ≠ "") then
        match constraintError (Pkg_VersionRange pkg) with
        | Some err =>
            [Errorf "package %q at index [%d] is invalid: versionRange is not in valid semantic versionning format: %v"
                    [Pkg_Name pkg; pretty i] (Some err)]
        | None => []
        end
      else [])
  ++ concat (imap (validateChannel pkg i) (Pkg_Channels pkg)).

(** [Validate] returns [errors.Join] of the problems found, which is [nil]
    exactly when there is none: the model returns the list joined. *)
Definition Validate (f : FilterConfiguration) : list error :=
  when (bool_decide (APIVersion f ≠ FilterAPIVersion))
       (Errorf "unexpected API version %q" [APIVersion f] None)
  ++ when (bool_decide (Kind f ≠ FilterKind))
       (Errorf "unexpected kind %q" [Kind f] None)
  ++ concat (imap validatePackage (Config_Packages f)).

End Validation.

(** ** Statements about a call, as a caller would phrase them *)

Section Statements.

Context `{L : Library}.

(** The input catalog is as before the call and the returned catalog is
    another object. *)
Definition inputUntouched (f : mirrorFilter) (p : loc) (h : heap) : Prop :=
  let '((out, _), h') := FilterCatalog f (Some p) h in
  viewOf h' p = viewOf h p ∧ out ≠ Some p.




(** A deprecation entry of the output that names a channel or a bundle
    names one the output has. *)
Definition referencePresent (v : CatalogView) (pkg : string) (e : DeprecationEntry) : Prop :=
  let ref := DeprecationEntry_Reference e in
  (Reference_Schema ref = SchemaBundle →
     ∃ b, b ∈ V_Bundles v ∧ Bundle_Package b = pkg ∧ Bundle_Name b = Reference_Name ref)
  ∧ (Reference_Schema ref = SchemaChannel →
     ∃ c, c ∈ V_Channels v ∧ View_Package c = pkg ∧ View_Name c = Reference_Name ref).

Definition deprecationsReferToOutput (v : CatalogView) : Prop :=
  ∀ d e, d ∈ V_Deprecations v → e ∈ DView_Entries d → referencePresent v (DView_Package d) e.

End Statements.

(** ** Catalogs and configurations used as examples *)

Module Examples.

Import Reference.

Definition packageProperty (pkg version : string) : list Property :=
  [mkProperty TypePackage (PackageJSON pkg version)].

Definition entry (name replaces : string) (skips : list string) : ChannelEntry :=
  mkChannelEntry name replaces skips "".

Definition config (packages : list Package) : FilterConfiguration :=
  mkFilterConfiguration FilterAPIVersion FilterKind packages.

(** Package [p], default channel [ch1]; channels [ch1] (b2 replaces b1) and
    [ch2] (b3 alone); the three bundles, listed b3, b2, b1; a deprecation
    block naming both channels; one global record.  The catalog object is
    at address 1. *)
Definition catalog : heap :=
  Heap
    {[ 1%positive :=
         mkDeclarativeConfig
           (Some [mkPackage "p" "ch1" "the package"])
           (Some [mkChannel "ch1" "p" (Some (Slice 1 2));
                  mkChannel "ch2" "p" (Some (Slice 2 1))])
           (Some [mkBundle "b3" "p" "img3" (packageProperty "p" "3.0.0");
                  mkBundle "b2" "p" "img2" (packageProperty "p" "2.0.0");
                  mkBundle "b1" "p" "img1" (packageProperty "p" "1.0.0")])
           (Some [mkDeprecation "p" (Some (Slice 1 2))])
           (Some [mkMeta "" "" "global" ""]) ]}
    {[ 1%positive := [entry "b2" "b1" []; entry "b1" "" []];
       2%positive := [entry "b3" "" []] ]}
    {[ 1%positive := [mkDeprecationEntry (mkReference SchemaChannel "ch1") "";
                      mkDeprecationEntry (mkReference SchemaChannel "ch2") ""] ]}.


(** No package configured. *)
Definition emptyFilter : mirrorFilter := NewMirrorFilter (config []) [].

(** [packages: [{name: p}]]. *)
Definition plainFilter : mirrorFilter :=
  NewMirrorFilter (config [mkPackageFilter "p" "" "" [] []]) [].




(** [packages: [{name: p, bundles: [{name: b1}, {name: b3}]}]]. *)
Definition selectFilter : mirrorFilter :=
  NewMirrorFilter
    (config [mkPackageFilter "p" "" "" [] [mkSelectedBundle "b1"; mkSelectedBundle "b3"]]) [].

End Examples.

(** ** The statement of the conflict between full and version ranges *)

Section Conflict.

Context `{L : Library}.


(** A channel that takes the [Full] branch of the switch or none of the
    first three: no version range applies to it and its package selects no
    bundle. *)
Definition unconstrained (f : mirrorFilter) (ch : declcfg.Channel) : Prop :=
  versionRangeOf f ch = "" ∧ selectedOf f ch = [].

(** The names the [Full] branch of the switch adds for a channel. *)
Definition keepAllEntries (s : state) (ch : declcfg.Channel) : gmap string (gset string) :=
  fold_left (λ keep entry, keepMore keep (Channel_Package ch) {[Entry_Name entry]})
            (readSlice (chanEntries s) (Channel_Entries ch)) (keepBundles s).

(** Default-channel reconciliation succeeds for every configured package
    of the catalog [c], against the channel names of [index]. *)
Definition defaultsReconcile (f : mirrorFilter) (index : operatorIndex)
    (c : DeclarativeConfig) : Prop :=
  ∀ pkg pkgConfig,
    pkg ∈ elems (Packages c) →
    pkgConfigs f !! Package_Name pkg = Some pkgConfig →
    ∃ pkg', setDefaultChannel pkg pkgConfig
              (default ∅ (Index_ChannelNames index !! Package_Name pkg)) = Ok pkg'.

End Conflict.

(** ** What the index records of a catalog *)

Section Recorded.

Context `{L : Library}.

(** The names of the channels of package [pkg] in the catalog [c]: what
    [index.ChannelNames[pkg]] holds once the index of [c] is built. *)
Definition channelNamesOf (c : DeclarativeConfig) (pkg : string) : gset string :=
  list_to_set
    (map Channel_Name
         (List.filter (λ ch, bool_decide (Channel_Package ch = pkg)) (elems (Channels c)))).

(** The state in which [FilterCatalog] enters its loop over the packages. *)
Definition initialState (f : mirrorFilter) (h : heap) (p : loc) (index : operatorIndex) : state :=
  mkState (startCatalog f h p) index (entries h) (depEntries h) ∅.





End Recorded.

(** ** What the loops leave alone *)

Section Frames.

Context `{L : Library}.

(** The loop over the packages writes the packages and the channels of the
    catalog and sorts channel lists of the index; the rest of the state is
    out of its reach. *)
Definition packageLoopFrame (s s' : state) : Prop :=
  Bundles (filteredFBC s') = Bundles (filteredFBC s)
  ∧ Deprecations (filteredFBC s') = Deprecations (filteredFBC s)
  ∧ Others (filteredFBC s') = Others (filteredFBC s)
  ∧ Index_Packages (catalogIndex s') = Index_Packages (catalogIndex s)
  ∧ Index_ChannelNames (catalogIndex s') = Index_ChannelNames (catalogIndex s)
  ∧ Index_ChannelEntries (catalogIndex s') = Index_ChannelEntries (catalogIndex s)
  ∧ Index_BundlesByPkgAndName (catalogIndex s') = Index_BundlesByPkgAndName (catalogIndex s)
  ∧ Index_BundleVersionsByPkgAndName (catalogIndex s')
    = Index_BundleVersionsByPkgAndName (catalogIndex s)
  ∧ chanEntries s' = chanEntries s
  ∧ deprEntries s' = deprEntries s
  ∧ keepBundles s' = keepBundles s.

(** The loop over the channels and the rebuilding of bundles and
    deprecations leave the packages, the other records and the index. *)
Definition channelLoopFrame (s s' : state) : Prop :=
  Packages (filteredFBC s') = Packages (filteredFBC s)
  ∧ Others (filteredFBC s') = Others (filteredFBC s)
  ∧ catalogIndex s' = catalogIndex s
  ∧ length (elems (Channels (filteredFBC s'))) = length (elems (Channels (filteredFBC s))).

End Frames.

(** ** Catalogs that a filter in full gives back as they are *)

Section Settled.

Context `{L : Library}.

(** Bundle [a] comes strictly before bundle [b] in the order of
    [compareBundles]. *)
Definition bundleBefore (a b : Bundle) : Prop := compareBundles a b = Lt.

(** The order [SortFunc] sorts bundles by. *)
Definition bundleNotAfter (a b : Bundle) : Prop := compareBundles a b ≠ Gt.




End Settled.

(** ** Reading the index *)

Section Reading.

Context `{L : Library}.

(** [index.BundlesByPkgAndName[pkg][name]]. *)
Definition bundleAt (index : operatorIndex) (pkg name : string) : option Bundle :=
  default ∅ (Index_BundlesByPkgAndName index !! pkg) !! name.


End Reading.

(** ** Readings used in the statements about single functions *)

Section Readings.

Context `{L : Library}.

(** The default channel [setDefaultChannel] settles on: the one of the
    filter when it names one, else the one of the catalog. *)
Definition effectiveDefault (pkg : declcfg.Package) (pkgConfig : Package) : string :=
  if decide (Pkg_DefaultChannel pkgConfig = "") then Package_DefaultChannel pkg
  else Pkg_DefaultChannel pkgConfig.

Definition isPackageProperty (p : Property) : bool :=
  bool_decide (Property_Type p = TypePackage).

Definition errNoPackageProperty (b : Bundle) : error :=
  Errorf "bundle %q in package %q has no package property"
         [Bundle_Name b; Bundle_Package b] None.

(** The version a package property holds. *)
Definition versionOfProperty (p : Property) : result Version :=
  match Property_Value p with
  | InvalidJSON => Err (LibraryError "json.Unmarshal")
  | PackageJSON _ version => StrictNewVersion version
  end.


(** The channels of a catalog with a given package, in order. *)
Definition channelsOf (cfg : DeclarativeConfig) (pkg : string) : list declcfg.Channel :=
  List.filter (λ ch, bool_decide (Channel_Package ch = pkg)) (elems (Channels cfg)).

(** The package a record belongs to, as [KeepMeta] reads it. *)
Definition metaPackageName (meta : Meta) : string :=
  if decide (Meta_Schema meta = "olm.package") then Meta_Name meta else Meta_Package meta.

(** The package filters of a configuration with a given name, and the
    channel filters they list, in order. *)
Definition packagesNamed (config : FilterConfiguration) (name : string) : list Package :=
  List.filter (λ pkg, bool_decide (Pkg_Name pkg = name)) (Config_Packages config).

Definition channelFiltersNamed (config : FilterConfiguration) (pkg name : string)
    : list Channel :=
  List.filter (λ ch, bool_decide (Ch_Name ch = name))
              (concat (map Pkg_Channels (packagesNamed config pkg))).

End Readings.


(** The index of the example catalog (an empty index, were it refused). *)
Definition exampleIndex : operatorIndex :=
  orElse (indexFromDeclCfg (entries Examples.catalog) (load Examples.catalog 1%positive))
         newOperatorIndex.

(** ** Filters without version ranges and bundle selection *)

Section Plain.

Context `{L : Library}.

(** A filter that asks for no version range and selects no bundle. *)
Definition plain (f : mirrorFilter) : Prop :=
  (∀ name pkgConfig, pkgConfigs f !! name = Some pkgConfig →
     Pkg_VersionRange pkgConfig = "" ∧ Pkg_SelectedBundles pkgConfig = [])
  ∧ (∀ name channels ch channel,
       chConfigs f !! name = Some channels → channels !! ch = Some channel →
       Ch_VersionRange channel = "").

(** The entry slices of the channels of the catalog at [p] lie over arrays
    of the store. *)
Definition channelsAllocated (h : heap) (p : loc) : Prop :=
  ∀ ch sl, ch ∈ elems (Channels (load h p)) → Channel_Entries ch = Some sl →
           is_Some (entries h !! arr sl).

Definition errFullWithBundles : error :=
  Errorf "Full: true cannot be mixed with filtering by bundle selection" [] None.

End Plain.

(** ** Statements about keepPackageDefaultChannel *)

Section DefaultChannel.

Context `{L : Library}.

(** The order [SortFunc] sorts channels by. *)
Definition channelNotAfter (a b : declcfg.Channel) : Prop := compareChannels a b ≠ Gt.

Definition errDefaultNotFound (pkg : declcfg.Package) : error :=
  Errorf "default channel %s not found for package %s"
         [Package_DefaultChannel pkg; Package_Name pkg] None.

(** The channels the index holds for the package of [pkg]. *)
Definition indexedChannels (s : state) (pkg : declcfg.Package) : list declcfg.Channel :=
  default [] (Index_Channels (catalogIndex s) !! Package_Name pkg).

(** Channel [ch] is the default channel of [pkg]. *)
Definition isDefaultOf (pkg : declcfg.Package) (ch : declcfg.Channel) : Prop :=
  Channel_Package ch = Package_Name pkg ∧ Channel_Name ch = Package_DefaultChannel pkg.

(** What [keepPackageDefaultChannel] deletes from the channels of the
    catalog: the channels of the package other than its default channel. *)
Definition keptByDefault (pkg : declcfg.Package) (ch : declcfg.Channel) : bool :=
  negb (bool_decide (Channel_Package ch = Package_Name pkg))
  || bool_decide (Channel_Name ch = Package_DefaultChannel pkg).

End DefaultChannel.

(** ** Configurations that Validate accepts *)

Section Accepted.

Context `{L : Library}.

Definition validChannel (pkg : Package) (channel : Channel) : Prop :=
  Ch_Name channel ≠ ""
  ∧ ¬ (Ch_VersionRange channel ≠ "" ∧ Pkg_VersionRange pkg ≠ "")
  ∧ (Ch_VersionRange channel ≠ "" → isOk (NewConstraint (Ch_VersionRange channel)) = true).

Definition validPackage (pkg : Package) : Prop :=
  Pkg_Name pkg ≠ ""
  ∧ ¬ (Pkg_SelectedBundles pkg ≠ [] ∧ (Pkg_Channels pkg ≠ [] ∨ Pkg_VersionRange pkg ≠ ""))
  ∧ (Pkg_VersionRange pkg ≠ "" → isOk (NewConstraint (Pkg_VersionRange pkg)) = true)
  ∧ Forall (validChannel pkg) (Pkg_Channels pkg).

End Accepted.

(** ** The manifest front end (package catalog) *)

(** The operator section of an image set configuration, as
    [filterFromImageSetConfig] reads it: the fields of the embedded
    [IncludeConfig] and [IncludeBundle] structs are listed with the struct
    that embeds them. *)
Module v2alpha1.

Record IncludeChannel : Type := mkIncludeChannel {
  IncludeChannel_Name : string;
  IncludeChannel_MinVersion : string;
  IncludeChannel_MaxVersion : string
}.

Record IncludePackage : Type := mkIncludePackage {
  IncludePackage_Name : string;
  IncludePackage_DefaultChannel : string;
  IncludePackage_MinVersion : string;
  IncludePackage_MaxVersion : string;
  IncludePackage_Channels : list IncludeChannel
}.

Record Operator : Type := mkOperator {
  Operator_Full : bool;
  Operator_Packages : list IncludePackage
}.

End v2alpha1.
Import v2alpha1.

(** The version range made of a minimum and a maximum version:
    [">=" + min], then [" <=" + max] appended, each when given. *)
Definition versionRangeFrom (minVersion maxVersion : string) : string :=
  let versionRange := if decide (minVersion ≠ "") then ">=" +:+ minVersion else "" in
  if decide (maxVersion ≠ "") then versionRange +:+ " <=" +:+ maxVersion else versionRange.

Definition channelFilterFrom (ch : IncludeChannel) : Channel :=
  mkChannelFilter (IncludeChannel_Name ch)
    (versionRangeFrom (IncludeChannel_MinVersion ch) (IncludeChannel_MaxVersion ch)).

Definition packageFilterFrom (op : IncludePackage) : Package :=
  mkPackageFilter (IncludePackage_Name op) (IncludePackage_DefaultChannel op)
    (versionRangeFrom (IncludePackage_MinVersion op) (IncludePackage_MaxVersion op))
    (fold_left (λ channels ch, channels ++ [channelFilterFrom ch])
               (IncludePackage_Channels op) [])
    [].

Definition filterFromImageSetConfig (iscCatalogFilter : Operator) : FilterConfiguration :=
  mkFilterConfiguration "olm.operatorframework.io/v1alpha1" "FilterConfiguration"
    (fold_left (λ packages op, packages ++ [packageFilterFrom op])
               (Operator_Packages iscCatalogFilter) []).

(** The filter [Manifest.FilterCatalog] builds. *)
Definition manifestFilter (iscCatalogFilter : Operator) : mirrorFilter :=
  NewMirrorFilter (filterFromImageSetConfig iscCatalogFilter)
                  [InFull (Operator_Full iscCatalogFilter)].

(** ** Statements about filterDeprecations *)

Section Pruned.

Context `{L : Library}.




End Pruned.


(** * Properties *)

Lemma isOk_orElse {A : Type} (r : result A) (d : A) : isOk r = true → r = Ok (orElse r d).
Proof. by destruct r. Qed.

Lemma isOk_true {A : Type} (r : result A) : isOk r = true ↔ ∃ a, r = Ok a.
Proof. destruct r; simpl; split; eauto; try done. by intros [? ?]. Qed.

Section Memory.

Context `{L : Library}.

Lemma allocate_fresh (h : heap) : configs h !! (fst (allocate h)) = None.
Proof.
  unfold allocate; simpl. apply not_elem_of_dom, is_fresh.
Qed.

Lemma load_allocate (h : heap) (p : loc) : load (snd (allocate h)) p = load h p.
Proof.
  unfold allocate, load; simpl.
  destruct (decide (fresh (dom (configs h)) = p)) as [<-|Hne].
  - rewrite lookup_insert_eq.
    pose proof (allocate_fresh h) as Hf. unfold allocate in Hf; simpl in Hf.
    by rewrite Hf.
  - by rewrite lookup_insert_ne.
Qed.

Lemma commit_other (h : heap) (out p : loc) (s : state) :
  out ≠ p → configs (commit h out s) !! p = configs h !! p.
Proof. intros Hne. unfold commit; simpl. by rewrite lookup_insert_ne. Qed.

Lemma allocate_other (h : heap) (p : loc) :
  is_Some (configs h !! p) →
  fst (allocate h) ≠ p ∧ configs (snd (allocate h)) !! p = configs h !! p.
Proof.
  intros Hp.
  assert (fst (allocate h) ≠ p) as Hne.
  { intros <-. rewrite allocate_fresh in Hp. by destruct Hp. }
  split; [done|]. unfold allocate in *; simpl in *. by rewrite lookup_insert_ne.
Qed.

End Memory.

(** ** C1: the input catalog and the returned object *)

(** C1, refuted as stated, twice.  With no package configured the engine
    works on the input object: on the example catalog the call returns the
    pointer it was given, and the caller's catalog is left with channel [ch1]
    alone.  With bundles [b1] and [b3] of package [p] selected, the call
    returns a new object, but the entries of channel [ch1] are deleted in the
    array the input channel shares with the output: the caller's channel, two
    entries long, now reads [b1] followed by an empty entry. *)
Lemma C1_input_is_mutated :
  ¬ inputUntouched Examples.emptyFilter 1%positive Examples.catalog
  ∧ fst (FilterCatalog Examples.emptyFilter (Some 1%positive) Examples.catalog)
    = (Some 1%positive, None)
  ∧ map View_Name (V_Channels (viewOf Examples.catalog 1%positive)) = ["ch1"; "ch2"]
  ∧ map View_Name
        (V_Channels (viewOf (snd (FilterCatalog Examples.emptyFilter (Some 1%positive)
                                    Examples.catalog)) 1%positive))
    = ["ch1"]
  ∧ ¬ inputUntouched Examples.selectFilter 1%positive Examples.catalog
  ∧ fst (FilterCatalog Examples.selectFilter (Some 1%positive) Examples.catalog)
    = (Some 2%positive, None)
  ∧ map (λ ch, map Entry_Name (View_Entries ch))
        (V_Channels (viewOf Examples.catalog 1%positive))
    = [["b2"; "b1"]; ["b3"]]
  ∧ map (λ ch, map Entry_Name (View_Entries ch))
        (V_Channels (viewOf (snd (FilterCatalog Examples.selectFilter (Some 1%positive)
                                    Examples.catalog)) 1%positive))
    = [["b1"; ""]; ["b3"]].
Proof.
  assert (fst (FilterCatalog Examples.emptyFilter (Some 1%positive) Examples.catalog)
          = (Some 1%positive, None)) as Hout by (vm_compute; reflexivity).
  assert (map (λ ch, map Entry_Name (View_Entries ch))
            (V_Channels (viewOf Examples.catalog 1%positive))
          = [["b2"; "b1"]; ["b3"]]) as Hbefore by (vm_compute; reflexivity).
  assert (map (λ ch, map Entry_Name (View_Entries ch))
            (V_Channels (viewOf (snd (FilterCatalog Examples.selectFilter (Some 1%positive)
                                        Examples.catalog)) 1%positive))
          = [["b1"; ""]; ["b3"]]) as Hafter by (vm_compute; reflexivity).
  split; [|split; [exact Hout|split; [vm_compute; reflexivity|split;
    [vm_compute; reflexivity|split; [|split; [vm_compute; reflexivity|split;
    [exact Hbefore|exact Hafter]]]]]]].
  - unfold inputUntouched.
    destruct (FilterCatalog Examples.emptyFilter (Some 1%positive) Examples.catalog)
      as [[out err] h'].
    cbn [fst] in Hout. injection Hout as -> _. intros [_ Hne]. by apply Hne.
  - unfold inputUntouched.
    destruct (FilterCatalog Examples.selectFilter (Some 1%positive) Examples.catalog)
      as [[out err] h'].
    change (snd (out, err, h')) with h' in Hafter.
    intros [Hview _]. rewrite Hview, Hbefore in Hafter. discriminate Hafter.
Qed.

(** C1, as amended.  When at least one package is configured, the returned
    catalog is a newly allocated object, distinct from the input, and the
    input object is left as it was: its packages, bundles and other records,
    and the name, package and entry slice of each of its channels and
    deprecations (the contents of the entry arrays, which the output shares,
    are not covered).  When no package is configured, the catalog returned,
    if any, is the input object itself. *)
Theorem C1_fresh_output_when_configured `{L : Library}
    (f : mirrorFilter) (p : loc) (h : heap) :
  is_Some (configs h !! p) →
  let '((out, _), h') := FilterCatalog f (Some p) h in
  (size (pkgConfigs f) ≠ 0 →
     out ≠ Some p
     ∧ (∀ q, out = Some q → configs h !! q = None)
     ∧ load h' p = load h p
     ∧ V_Packages (viewOf h' p) = V_Packages (viewOf h p)
     ∧ V_Bundles (viewOf h' p) = V_Bundles (viewOf h p)
     ∧ V_Others (viewOf h' p) = V_Others (viewOf h p))
  ∧ (size (pkgConfigs f) = 0 → ∀ q, out = Some q → q = p).
Proof.
  intros Hp.
  destruct (FilterCatalog f (Some p) h) as [[out err] h'] eqn:Hrun.
  unfold FilterCatalog in Hrun.
  destruct (allocate h) as [q h1] eqn:Halloc.
  pose proof (allocate_other h p Hp) as [Hqp Hh1]. rewrite Halloc in Hqp, Hh1; simpl in Hqp, Hh1.
  pose proof (allocate_fresh h) as Hfresh. rewrite Halloc in Hfresh; simpl in Hfresh.
  assert (size (pkgConfigs f) ≠ 0 → out ≠ Some p
          ∧ (∀ q', out = Some q' → configs h !! q' = None)
          ∧ configs h' !! p = configs h !! p) as Hmain.
  { intros Hsize. unfold outputOf in Hrun.
    destruct (decide (size (pkgConfigs f) ≠ 0)) as [_|]; [|done].
    destruct (indexFromDeclCfg _ _) as [index|e].
    - destruct (packagesLoop f _) as [s1 [e1|]].
      { simplify_eq. repeat split; [done|by intros ? [=]|].
        rewrite commit_other; done. }
      destruct (channelsLoop f s1) as [s2 [e2|]].
      { simplify_eq. repeat split; [done|by intros ? [=]|].
        rewrite commit_other; done. }
      simplify_eq. repeat split.
      + intros [=]. done.
      + intros ? [= <-]. done.
      + rewrite commit_other; done.
    - simplify_eq. repeat split.
      + intros [=]. done.
      + intros ? [= <-]. done.
      + simpl. rewrite lookup_insert_ne; done. }
  split.
  - intros Hsize. destruct (Hmain Hsize) as (H1 & H2 & H3).
    assert (load h' p = load h p) as Hload by (unfold load; by rewrite H3).
    repeat split; try done; unfold viewOf; simpl; by rewrite Hload.
  - intros Hsize q' ->. unfold outputOf in Hrun.
    destruct (decide (size (pkgConfigs f) ≠ 0)) as [|_]; [done|].
    destruct (indexFromDeclCfg _ _) as [index|e].
    + destruct (packagesLoop f _) as [s1 [e1|]]; [by simplify_eq|].
      destruct (channelsLoop f s1) as [s2 [e2|]]; by simplify_eq.
    + by simplify_eq.
Qed.

(** The amended statement at work: the example catalog filtered for package
    [p] alone. *)
Lemma C1_fresh_output_witness :
  is_Some (configs Examples.catalog !! 1%positive)
  ∧ size (pkgConfigs Examples.plainFilter) ≠ 0
  ∧ fst (fst (FilterCatalog Examples.plainFilter (Some 1%positive) Examples.catalog))
    ≠ Some 1%positive
  ∧ load (snd (FilterCatalog Examples.plainFilter (Some 1%positive) Examples.catalog)) 1%positive
    = load Examples.catalog 1%positive.
Proof.
  assert (is_Some (configs Examples.catalog !! 1%positive)) as Hp
    by (vm_compute; eauto).
  assert (size (pkgConfigs Examples.plainFilter) ≠ 0) as Hsize
    by (vm_compute; discriminate).
  pose proof (C1_fresh_output_when_configured
                Examples.plainFilter 1%positive Examples.catalog Hp) as H.
  destruct (FilterCatalog Examples.plainFilter (Some 1%positive) Examples.catalog)
    as [[out err] h'].
  destruct H as [H _]. destruct (H Hsize) as (H1 & _ & H3 & _).
  repeat split; done.
Defined.

(** ** Loops *)

Section ForRange.

Context {St : Type} (body : nat → St → St * option error).

Lemma forRange_split (n m : nat) : ∀ (i : nat) (s : St),
  forRange body i (n + m) s =
  match forRange body i n s with
  | (s', None) => forRange body (i + n) m s'
  | r => r
  end.
Proof.
  induction n as [|n IH]; intros i s; simpl.
  - by rewrite Nat.add_0_r.
  - destruct (body i s) as [s' [e|]]; [done|].
    rewrite IH. by replace (S i + n) with (i + S n) by lia.
Qed.

(** A loop all of whose iterations succeed and keep an invariant. *)
Lemma forRange_succeeds (P : nat → St → Prop) (n : nat) : ∀ (i : nat) (s : St),
  P i s →
  (∀ j s, i ≤ j < i + n → P j s → ∃ s', body j s = (s', None) ∧ P (S j) s') →
  ∃ s', forRange body i n s = (s', None) ∧ P (i + n) s'.
Proof.
  induction n as [|n IH]; intros i s HP Hbody; simpl.
  - exists s. by rewrite Nat.add_0_r.
  - destruct (Hbody i s) as (s' & -> & HP'); [lia|done|].
    destruct (IH (S i) s' HP') as (s'' & Hrun & HP'').
    { intros j t Hj. apply Hbody. lia. }
    exists s''. split; [done|]. by replace (i + S n) with (S i + n) by lia.
Qed.

(** What a successful loop leaves, from what its iterations keep. *)
Lemma forRange_invariant (P : nat → St → Prop) (n : nat) : ∀ (i : nat) (s s' : St),
  P i s →
  (∀ j s s', i ≤ j < i + n → P j s → body j s = (s', None) → P (S j) s') →
  forRange body i n s = (s', None) →
  P (i + n) s'.
Proof.
  induction n as [|n IH]; intros i s s' HP Hbody; simpl.
  - intros [= <-]. by rewrite Nat.add_0_r.
  - destruct (body i s) as [s1 [e|]] eqn:Hb; [done|].
    intros Hrun. replace (i + S n) with (S i + n) by lia.
    apply (IH (S i) s1); [|intros j t t' Hj; apply Hbody; lia|done].
    apply (Hbody i s); [lia|done|done].
Qed.

(** What any loop leaves, from what every iteration keeps, failed or not. *)
Lemma forRange_preserves (P : St → Prop) (n : nat) : ∀ (i : nat) (s : St),
  P s →
  (∀ j s, P s → P (fst (body j s))) →
  P (fst (forRange body i n s)).
Proof.
  induction n as [|n IH]; intros i s HP Hbody; simpl; [done|].
  pose proof (Hbody i s HP) as HP'.
  destruct (body i s) as [s1 [e|]]; simpl in *; [done|].
  by apply IH.
Qed.

End ForRange.

(** ** The package loop *)

Section PackageLoop.

Context `{L : Library}.

Lemma elems_setAt {A : Type} (s : option (list A)) (i : nat) (x : A) :
  elems (setAt s i x) = <[i := x]> (elems s).
Proof. by destruct s. Qed.

(** In full the loop over the packages only reconciles default channels:
    an iteration touches nothing but the package it is at. *)
Lemma packageBody_full (f : mirrorFilter) (j : nat) (s : state) :
  Full (opts f) = true →
  Channels (filteredFBC (fst (packageBody f j s))) = Channels (filteredFBC s)
  ∧ Bundles (filteredFBC (fst (packageBody f j s))) = Bundles (filteredFBC s)
  ∧ Deprecations (filteredFBC (fst (packageBody f j s))) = Deprecations (filteredFBC s)
  ∧ Others (filteredFBC (fst (packageBody f j s))) = Others (filteredFBC s)
  ∧ catalogIndex (fst (packageBody f j s)) = catalogIndex s
  ∧ chanEntries (fst (packageBody f j s)) = chanEntries s
  ∧ deprEntries (fst (packageBody f j s)) = deprEntries s
  ∧ keepBundles (fst (packageBody f j s)) = keepBundles s
  ∧ (∀ k, k ≠ j →
       elems (Packages (filteredFBC (fst (packageBody f j s)))) !! k
       = elems (Packages (filteredFBC s)) !! k).
Proof.
  intros HF. unfold packageBody. rewrite HF. simpl.
  destruct (elems (Packages (filteredFBC s)) !! j) as [pkg|]; [|done].
  destruct (pkgConfigs f !! Package_Name pkg) as [pkgConfig|]; [|done].
  destruct (setDefaultChannel _ _ _) as [pkg'|e]; [|done].
  rewrite andb_false_r. simpl.
  repeat split; try done.
  intros k Hk. rewrite elems_setAt. by rewrite list_lookup_insert_ne.
Qed.

Lemma packageBody_full_ok (f : mirrorFilter) (j : nat) (s : state)
    (pkg : declcfg.Package) :
  Full (opts f) = true →
  elems (Packages (filteredFBC s)) !! j = Some pkg →
  (∀ pkgConfig, pkgConfigs f !! Package_Name pkg = Some pkgConfig →
     ∃ pkg', setDefaultChannel pkg pkgConfig
               (default ∅ (Index_ChannelNames (catalogIndex s) !! Package_Name pkg))
             = Ok pkg') →
  snd (packageBody f j s) = None.
Proof.
  intros HF Hj Hok. unfold packageBody. rewrite HF, Hj. simpl.
  destruct (pkgConfigs f !! Package_Name pkg) as [pkgConfig|]; [|done].
  destruct (Hok pkgConfig eq_refl) as [pkg' ->].
  by rewrite andb_false_r.
Qed.

(** In full, when every default channel reconciles, the loop over the
    packages succeeds and leaves the channels, the index and the stores as
    they were. *)
Lemma packagesLoop_full (f : mirrorFilter) (s : state) :
  Full (opts f) = true →
  defaultsReconcile f (catalogIndex s) (filteredFBC s) →
  ∃ s', packagesLoop f s = (s', None)
        ∧ Channels (filteredFBC s') = Channels (filteredFBC s)
        ∧ Bundles (filteredFBC s') = Bundles (filteredFBC s)
        ∧ Deprecations (filteredFBC s') = Deprecations (filteredFBC s)
        ∧ Others (filteredFBC s') = Others (filteredFBC s)
        ∧ catalogIndex s' = catalogIndex s
        ∧ chanEntries s' = chanEntries s
        ∧ deprEntries s' = deprEntries s
        ∧ keepBundles s' = keepBundles s.
Proof.
  intros HF Hok. unfold packagesLoop.
  set (n := length (elems (Packages (filteredFBC s)))).
  destruct (forRange_succeeds (packageBody f)
    (λ j t, Channels (filteredFBC t) = Channels (filteredFBC s)
            ∧ Bundles (filteredFBC t) = Bundles (filteredFBC s)
            ∧ Deprecations (filteredFBC t) = Deprecations (filteredFBC s)
            ∧ Others (filteredFBC t) = Others (filteredFBC s)
            ∧ catalogIndex t = catalogIndex s
            ∧ chanEntries t = chanEntries s
            ∧ deprEntries t = deprEntries s
            ∧ keepBundles t = keepBundles s
            ∧ ∀ k : nat, (j ≤ k)%nat → elems (Packages (filteredFBC t)) !! k
                           = elems (Packages (filteredFBC s)) !! k)
    n 0 s) as (s' & Hrun & Hinv).
  - repeat split; done.
  - intros j t Hj (H1 & H2 & H3 & H4 & H5 & H6 & H7 & H8 & H9).
    destruct (lookup_lt_is_Some_2 (elems (Packages (filteredFBC s))) j) as [pkg Hpkg];
      [unfold n in Hj; lia|].
    pose proof (packageBody_full f j t HF) as (G1 & G2 & G3 & G4 & G5 & G6 & G7 & G8 & G9).
    pose proof (packageBody_full_ok f j t pkg HF) as Hnone.
    destruct (packageBody f j t) as [t' r]; simpl in *.
    exists t'. split.
    + rewrite Hnone; [done|by rewrite H9, Hpkg|].
      intros pkgConfig Hcfg. rewrite H5.
      apply Hok; [|done]. by eapply list_elem_of_lookup_2.
    + repeat split; try congruence.
      intros k Hk. rewrite G9 by lia. apply H9. lia.
  - exists s'. destruct Hinv as (H1 & H2 & H3 & H4 & H5 & H6 & H7 & H8 & _).
    repeat split; done.
Qed.

End PackageLoop.

(** ** The channel loop, in full *)

Section ChannelLoopFull.

Context `{L : Library}.

Lemma channelBody_full_unconstrained (f : mirrorFilter) (j : nat) (s : state)
    (ch : declcfg.Channel) :
  Full (opts f) = true →
  elems (Channels (filteredFBC s)) !! j = Some ch →
  unconstrained f ch →
  channelBody f j s = (withKeepBundles s (keepAllEntries s ch), None).
Proof.
  intros HF Hj [Hrange Hsel]. unfold channelBody. rewrite Hj, HF, Hrange, Hsel. done.
Qed.


(** In full, over channels that are all unconstrained, the loop succeeds
    and changes [keepBundles] only. *)
Lemma channels_full_prefix (f : mirrorFilter) (s : state) (n : nat) :
  Full (opts f) = true →
  (∀ j ch, j < n → elems (Channels (filteredFBC s)) !! j = Some ch → unconstrained f ch) →
  n ≤ length (elems (Channels (filteredFBC s))) →
  ∃ s', forRange (channelBody f) 0 n s = (s', None)
        ∧ filteredFBC s' = filteredFBC s
        ∧ catalogIndex s' = catalogIndex s
        ∧ chanEntries s' = chanEntries s
        ∧ deprEntries s' = deprEntries s.
Proof.
  intros HF Hun Hn.
  destruct (forRange_succeeds (channelBody f)
    (λ _ t, filteredFBC t = filteredFBC s ∧ catalogIndex t = catalogIndex s
            ∧ chanEntries t = chanEntries s ∧ deprEntries t = deprEntries s)
    n 0 s) as (s' & Hrun & Hinv); [done| |by exists s'].
  intros j t Hj (H1 & H2 & H3 & H4).
  destruct (lookup_lt_is_Some_2 (elems (Channels (filteredFBC s))) j) as [ch Hch]; [lia|].
  exists (withKeepBundles t (keepAllEntries t ch)). split; [|done].
  apply channelBody_full_unconstrained; [done|by rewrite H1|].
  apply (Hun j); [lia|done].
Qed.

End ChannelLoopFull.

(** ** C5: full and version ranges *)

Section FullAndRanges.

Context `{L : Library}.

Lemma startCatalog_allocate (f : mirrorFilter) (h : heap) (p : loc) :
  startCatalog f (snd (allocate h)) p = startCatalog f h p.
Proof. unfold startCatalog. by rewrite load_allocate. Qed.


End FullAndRanges.



(** ** C3: deprecation entries and the channels of the output *)

(** C3 on the example catalog, filtered for [packages: [{name: p}]]: the
    configuration is accepted, the call succeeds and returns a new catalog
    whose only channel is the default channel [ch1], and the deprecation block
    of [p] still holds the entry that names channel [ch2]: the channel names
    [filterDeprecations] tests against are those the index recorded before
    [keepPackageDefaultChannel] dropped [ch2]. *)
Lemma C3_deprecation_of_pruned_channel_survives :
  Validate (Examples.config [mkPackageFilter "p" "" "" [] []]) = []
  ∧ fst (FilterCatalog Examples.plainFilter (Some 1%positive) Examples.catalog)
    = (Some 2%positive, None)
  ∧ map View_Name
        (V_Channels (viewOf (snd (FilterCatalog Examples.plainFilter (Some 1%positive)
                                    Examples.catalog)) 2%positive))
    = ["ch1"]
  ∧ mkDeprecationView "p"
      [mkDeprecationEntry (mkReference SchemaChannel "ch1") "";
       mkDeprecationEntry (mkReference SchemaChannel "ch2") ""]
    ∈ V_Deprecations (viewOf (snd (FilterCatalog Examples.plainFilter (Some 1%positive)
                                     Examples.catalog)) 2%positive)
  ∧ ¬ deprecationsReferToOutput
        (viewOf (snd (FilterCatalog Examples.plainFilter (Some 1%positive) Examples.catalog))
                2%positive).
Proof.
  set (v := viewOf (snd (FilterCatalog Examples.plainFilter (Some 1%positive) Examples.catalog))
                   2%positive).
  assert (V_Channels v = [mkChannelView "ch1" "p" [Examples.entry "b2" "b1" []]]) as Hch
    by (vm_compute; reflexivity).
  assert (V_Deprecations v
          = [mkDeprecationView "p"
               [mkDeprecationEntry (mkReference SchemaChannel "ch1") "";
                mkDeprecationEntry (mkReference SchemaChannel "ch2") ""]]) as Hdep
    by (vm_compute; reflexivity).
  split; [vm_compute; reflexivity|].
  split; [vm_compute; reflexivity|].
  split; [by rewrite Hch|].
  split; [rewrite Hdep; apply list_elem_of_singleton; reflexivity|].
  intros Hrefer.
  destruct (Hrefer (mkDeprecationView "p"
                      [mkDeprecationEntry (mkReference SchemaChannel "ch1") "";
                       mkDeprecationEntry (mkReference SchemaChannel "ch2") ""])
                   (mkDeprecationEntry (mkReference SchemaChannel "ch2") "")) as [_ Hchan].
  - rewrite Hdep. by apply list_elem_of_singleton.
  - simpl. apply list_elem_of_In. simpl. auto.
  - destruct (Hchan eq_refl) as (c & Hc & _ & Hname).
    rewrite Hch in Hc. apply list_elem_of_singleton in Hc. subst c. discriminate Hname.
Qed.

(** ** Folds *)

Section Folds.

Context {A B : Type}.

(** What a successful loop over a list leaves, from what its steps keep. *)
Lemma foldResult_invariant (f : B → A → result B) (P : list A → B → Prop) (l : list A) :
  ∀ (pre : list A) (b b' : B),
    P pre b →
    (∀ pre a b b', P pre b → a ∈ l → f b a = Ok b' → P (pre ++ [a]) b') →
    foldResult f l b = Ok b' →
    P (pre ++ l) b'.
Proof.
  induction l as [|a l IH]; intros pre b b' HP Hstep; simpl.
  - intros [= <-]. by rewrite app_nil_r.
  - destruct (f b a) as [b1|e] eqn:Hf; [|done].
    intros Hrun. replace (pre ++ a :: l) with ((pre ++ [a]) ++ l) by by rewrite <- app_assoc.
    apply (IH _ b1); [|intros ? ? ? ? ? ?; apply Hstep; [done|by right]|done].
    apply (Hstep pre a b); [done|by left|done].
Qed.


Lemma fold_left_invariant (f : B → A → B) (P : B → Prop) (l : list A) :
  ∀ b, P b → (∀ b a, P b → P (f b a)) → P (fold_left f l b).
Proof.
  induction l as [|a l IH]; intros b HP Hstep; simpl; [done|].
  apply IH; [by apply Hstep|done].
Qed.

End Folds.

(** ** The index *)

Section Index.

Context `{L : Library}.

(** A bundle is added to the index without touching what was recorded of
    packages and channels. *)
Lemma indexBundle_frame (index index' : operatorIndex) (b : Bundle) :
  indexBundle index b = Ok index' →
  Index_Packages index' = Index_Packages index
  ∧ Index_Channels index' = Index_Channels index
  ∧ Index_ChannelNames index' = Index_ChannelNames index
  ∧ Index_ChannelEntries index' = Index_ChannelEntries index.
Proof.
  unfold indexBundle. destruct (getBundleVersion b); [|done].
  by intros [= <-].
Qed.

Lemma indexChannel_names (mem : gmap loc (list ChannelEntry)) (chs : list declcfg.Channel) :
  ∀ (index : operatorIndex) (pkg : string),
    default ∅ (Index_ChannelNames (fold_left (indexChannel mem) chs index) !! pkg)
    = default ∅ (Index_ChannelNames index !! pkg)
      ∪ list_to_set (map Channel_Name
                       (List.filter (λ ch, bool_decide (Channel_Package ch = pkg)) chs)).
Proof.
  induction chs as [|c chs IH]; intros index pkg; simpl.
  - set_solver.
  - rewrite IH. simpl.
    destruct (decide (Channel_Package c = pkg)) as [<-|Hne].
    + rewrite lookup_insert_eq, bool_decide_eq_true_2 by done. simpl. set_solver.
    + rewrite lookup_insert_ne, bool_decide_eq_false_2 by done. done.
Qed.

Lemma indexPackage_names (pkgs : list declcfg.Package) (index : operatorIndex) :
  Index_ChannelNames (fold_left indexPackage pkgs index) = Index_ChannelNames index.
Proof.
  apply (fold_left_invariant indexPackage
           (λ i, Index_ChannelNames i = Index_ChannelNames index)); done.
Qed.

(** The channel names the index holds for a package are the names of the
    channels of that package in the catalog. *)
Lemma indexFromDeclCfg_channel_names (mem : gmap loc (list ChannelEntry))
    (cfg : DeclarativeConfig) (index : operatorIndex) (pkg : string) :
  indexFromDeclCfg mem cfg = Ok index →
  default ∅ (Index_ChannelNames index !! pkg) = channelNamesOf cfg pkg.
Proof.
  unfold indexFromDeclCfg. intros Hrun.
  apply (foldResult_invariant indexBundle
           (λ _ i, default ∅ (Index_ChannelNames i !! pkg) = channelNamesOf cfg pkg)
           _ [] _ index) in Hrun; [done| |].
  - rewrite indexChannel_names, indexPackage_names. simpl.
    rewrite lookup_empty. simpl. unfold channelNamesOf. set_solver.
  - intros _ b i i' Hi _ Hb. apply indexBundle_frame in Hb as (_ & _ & -> & _). done.
Qed.

End Index.

(** ** The package loop: what it leaves alone *)

Section PackageLoopFrame.

Context `{L : Library}.

Lemma packageLoopFrame_refl (s : state) : packageLoopFrame s s.
Proof. repeat split. Qed.

Lemma packageLoopFrame_trans (s1 s2 s3 : state) :
  packageLoopFrame s1 s2 → packageLoopFrame s2 s3 → packageLoopFrame s1 s3.
Proof.
  unfold packageLoopFrame. intros H1 H2.
  destruct_and!. repeat split; congruence.
Qed.

Lemma keepPackageDefaultChannel_frame (s : state) (pkg : declcfg.Package) :
  packageLoopFrame s (fst (keepPackageDefaultChannel s pkg))
  ∧ Packages (filteredFBC (fst (keepPackageDefaultChannel s pkg))) = Packages (filteredFBC s).
Proof.
  unfold keepPackageDefaultChannel.
  destruct (BinarySearchFunc _ _ _) as [channelIndex [|]]; simpl; [|by repeat split].
  destruct (Channels (filteredFBC s)) as [l|]; simpl; [|by repeat split].
  destruct (decide _); by repeat split.
Qed.

Lemma keepDefault_frame (f : mirrorFilter) (s : state) (pkg : declcfg.Package) :
  packageLoopFrame s (fst (keepDefault f s pkg))
  ∧ Packages (filteredFBC (fst (keepDefault f s pkg))) = Packages (filteredFBC s).
Proof.
  unfold keepDefault.
  pose proof (keepPackageDefaultChannel_frame s pkg) as H.
  by destruct (keepPackageDefaultChannel s pkg) as [s' [e|]].
Qed.

(** An iteration of the loop over the packages writes no package but the
    one it is at. *)
Lemma packageBody_frame (f : mirrorFilter) (j : nat) (s : state) :
  packageLoopFrame s (fst (packageBody f j s))
  ∧ ∀ k, k ≠ j →
      elems (Packages (filteredFBC (fst (packageBody f j s)))) !! k
      = elems (Packages (filteredFBC s)) !! k.
Proof.
  unfold packageBody.
  destruct (elems (Packages (filteredFBC s)) !! j) as [pkg|]; [|by split; [repeat split|]].
  destruct (pkgConfigs f !! Package_Name pkg) as [pkgConfig|].
  - destruct (setDefaultChannel _ _ _) as [pkg'|e]; [|by split; [repeat split|]].
    match goal with |- context [keepDefault f ?t pkg'] => set (s1 := t) end.
    assert (packageLoopFrame s s1) as Hs1 by (by repeat split).
    assert (∀ k, k ≠ j → elems (Packages (filteredFBC s1)) !! k
                          = elems (Packages (filteredFBC s)) !! k) as Hk.
    { intros k Hk. unfold s1. simpl. rewrite elems_setAt. by rewrite list_lookup_insert_ne. }
    destruct (_ && _).
    + destruct (keepDefault_frame f s1 pkg') as [Hfr Hpk].
      split; [by eapply packageLoopFrame_trans|].
      intros k Hkj. rewrite Hpk. by apply Hk.
    + by split.
  - destruct (negb _); [|by split; [repeat split|]].
    destruct (keepDefault_frame f s pkg) as [Hfr Hpk].
    split; [done|]. intros k _. by rewrite Hpk.
Qed.




End PackageLoopFrame.

(** ** The channel loop and the rebuilding: what they leave alone *)

Section ChannelLoopFrame.

Context `{L : Library}.

Lemma channelLoopFrame_refl (s : state) : channelLoopFrame s s.
Proof. repeat split. Qed.

Lemma channelLoopFrame_trans (s1 s2 s3 : state) :
  channelLoopFrame s1 s2 → channelLoopFrame s2 s3 → channelLoopFrame s1 s3.
Proof.
  unfold channelLoopFrame. intros H1 H2.
  destruct_and!. repeat split; congruence.
Qed.

Lemma length_elems_setAt {A : Type} (s : option (list A)) (i : nat) (x : A) :
  length (elems (setAt s i x)) = length (elems s).
Proof. rewrite elems_setAt. apply length_insert. Qed.

Lemma deleteEntries_frame (s : state) (j : nat) (del : ChannelEntry → bool) :
  channelLoopFrame s (deleteEntries s j del)
  ∧ keepBundles (deleteEntries s j del) = keepBundles s
  ∧ deprEntries (deleteEntries s j del) = deprEntries s.
Proof.
  unfold deleteEntries.
  destruct (elems (Channels (filteredFBC s)) !! j) as [cur|]; [|by repeat split].
  destruct (DeleteFunc _ _ _ _) as [sl mem]. simpl.
  repeat split. simpl. apply length_elems_setAt.
Qed.

Lemma channelBody_frame (f : mirrorFilter) (j : nat) (s : state) :
  channelLoopFrame s (fst (channelBody f j s)).
Proof.
  unfold channelBody.
  destruct (elems (Channels (filteredFBC s)) !! j) as [ch|]; [|apply channelLoopFrame_refl].
  repeat (match goal with
          | |- context [if ?b then _ else _] => destruct b
          end; simpl; try apply channelLoopFrame_refl).
  - match goal with |- context [deleteEntries ?t j ?d] =>
      destruct (deleteEntries_frame t j d) as (Hfr & _ & _);
      destruct (newChannel _) as [c|e]; exact Hfr
    end.
  - repeat split.
  - destruct (NewConstraint _) as [rangeConstraint|e]; [|apply channelLoopFrame_refl].
    destruct (newChannel _) as [filteringChannel|e]; [|apply channelLoopFrame_refl].
    destruct (decide _); [apply channelLoopFrame_refl|].
    match goal with |- context [deleteEntries ?t j ?d] =>
      destruct (deleteEntries_frame t j d) as (Hfr & _ & _)
    end.
    simpl. exact Hfr.
  - unfold filterChannelHead.
    destruct (newChannel _) as [filteringChannel|e]; [|apply channelLoopFrame_refl].
    simpl. repeat split. simpl. apply length_elems_setAt.
Qed.

Lemma channelsLoop_frame (f : mirrorFilter) (i n : nat) (s : state) :
  channelLoopFrame s (fst (forRange (channelBody f) i n s)).
Proof.
  apply (forRange_preserves (channelBody f) (λ t, channelLoopFrame s t)).
  - apply channelLoopFrame_refl.
  - intros j t Ht. eapply channelLoopFrame_trans; [done|apply channelBody_frame].
Qed.

Lemma deprecationBody_frame (i : nat) (s : state) :
  channelLoopFrame s (fst (deprecationBody i s))
  ∧ Channels (filteredFBC (fst (deprecationBody i s))) = Channels (filteredFBC s)
  ∧ Bundles (filteredFBC (fst (deprecationBody i s))) = Bundles (filteredFBC s)
  ∧ chanEntries (fst (deprecationBody i s)) = chanEntries s
  ∧ keepBundles (fst (deprecationBody i s)) = keepBundles s.
Proof.
  unfold deprecationBody.
  destruct (elems (Deprecations (filteredFBC s)) !! i) as [d|]; [|by repeat split].
  destruct (DeleteFunc _ _ _ _) as [sl mem]. by repeat split.
Qed.

(** Pruning the deprecations writes the deprecations and their entries
    only. *)
Lemma filterDeprecations_frame (s : state) :
  channelLoopFrame s (filterDeprecations s)
  ∧ Channels (filteredFBC (filterDeprecations s)) = Channels (filteredFBC s)
  ∧ Bundles (filteredFBC (filterDeprecations s)) = Bundles (filteredFBC s)
  ∧ chanEntries (filterDeprecations s) = chanEntries s
  ∧ keepBundles (filterDeprecations s) = keepBundles s.
Proof.
  unfold filterDeprecations.
  apply (forRange_preserves deprecationBody
           (λ t, channelLoopFrame s t
                 ∧ Channels (filteredFBC t) = Channels (filteredFBC s)
                 ∧ Bundles (filteredFBC t) = Bundles (filteredFBC s)
                 ∧ chanEntries t = chanEntries s
                 ∧ keepBundles t = keepBundles s)).
  - split; [apply channelLoopFrame_refl|done].
  - intros j t (H1 & H2 & H3 & H4 & H5).
    destruct (deprecationBody_frame j t) as (G1 & G2 & G3 & G4 & G5).
    split; [by eapply channelLoopFrame_trans|].
    repeat split; congruence.
Qed.

Lemma rebuildBundles_frame (s : state) :
  channelLoopFrame s (rebuildBundles s)
  ∧ Channels (filteredFBC (rebuildBundles s)) = Channels (filteredFBC s)
  ∧ chanEntries (rebuildBundles s) = chanEntries s.
Proof.
  unfold rebuildBundles.
  destruct (decide _); [|by repeat split].
  match goal with |- context [filterDeprecations ?t] =>
    destruct (filterDeprecations_frame t) as (H1 & H2 & _ & H4 & _)
  end.
  split; [|by rewrite H2, H4].
  eapply channelLoopFrame_trans; [|exact H1]. by repeat split.
Qed.

End ChannelLoopFrame.

(** ** FilterCatalog, step by step *)

Section Run.

Context `{L : Library}.

Lemma FilterCatalog_unfold (f : mirrorFilter) (p : loc) (h : heap) :
  FilterCatalog f (Some p) h =
  let h1 := snd (allocate h) in
  let out := outputOf f p (fst (allocate h)) in
  match indexFromDeclCfg (entries h) (startCatalog f h p) with
  | Err err =>
      ((Some out, Some err),
       Heap (<[out := startCatalog f h p]> (configs h1)) (entries h) (depEntries h))
  | Ok index =>
      match packagesLoop f (initialState f h p index) with
      | (s, Some err) => ((None, Some err), commit h1 out s)
      | (s, None) =>
          match channelsLoop f s with
          | (s, Some err) => ((None, Some err), commit h1 out s)
          | (s, None) => ((Some out, None), commit h1 out (rebuildBundles s))
          end
      end
  end.
Proof.
  unfold FilterCatalog.
  pose proof (startCatalog_allocate f h p) as Hstart.
  destruct (allocate h) as [q h1] eqn:Halloc.
  assert (entries h1 = entries h ∧ depEntries h1 = depEntries h) as [Hent Hdep]
    by (unfold allocate in Halloc; by simplify_eq).
  simpl in *. rewrite Hstart, Hent, Hdep. done.
Qed.

Lemma load_commit (h : heap) (out : loc) (s : state) :
  load (commit h out s) out = filteredFBC s.
Proof. unfold load, commit. simpl. by rewrite lookup_insert_eq. Qed.





End Run.

(** ** C4: the default channel of a configured package *)



(** ** The order on bundles *)

Section Order.

Lemma string_compare_refl (s : string) : String.compare s s = Eq.
Proof.
  induction s as [|c s IH]; simpl; [done|].
  unfold Ascii.compare. by rewrite BinNat.N.compare_refl.
Qed.

Lemma string_compare_lt_trans (a b c : string) :
  String.compare a b = Lt → String.compare b c = Lt → String.compare a c = Lt.
Proof.
  intros H1 H2.
  exact (@RelationClasses.StrictOrder_Transitive _ _
           OrdersEx.String_as_OT.lt_strorder a b c H1 H2).
Qed.

Lemma string_compare_gt (a b : string) : String.compare a b = Gt ↔ String.compare b a = Lt.
Proof.
  rewrite (String.compare_antisym b a). destruct (String.compare a b); simpl; split; congruence.
Qed.

(** [compareBundles] read as an order on (package, name). *)
Lemma compareBundles_lt (a b : Bundle) :
  compareBundles a b = Lt ↔
  String.compare (Bundle_Package a) (Bundle_Package b) = Lt
  ∨ (Bundle_Package a = Bundle_Package b
     ∧ String.compare (Bundle_Name a) (Bundle_Name b) = Lt).
Proof.
  unfold compareBundles.
  destruct (String.compare (Bundle_Package a) (Bundle_Package b)) eqn:Hp.
  - apply String.compare_eq_iff in Hp. split; [by right|]. by intros [|[_ ?]].
  - split; [by left|done].
  - split; [done|]. intros [|[Heq _]]; [done|].
    rewrite Heq, string_compare_refl in Hp. done.
Qed.

Lemma compareBundles_eq (a b : Bundle) :
  compareBundles a b = Eq ↔
  Bundle_Package a = Bundle_Package b ∧ Bundle_Name a = Bundle_Name b.
Proof.
  unfold compareBundles. split.
  - destruct (String.compare (Bundle_Package a) (Bundle_Package b)) eqn:Hp; try done.
    intros Hn. by split; apply String.compare_eq_iff.
  - intros [-> ->]. by rewrite !string_compare_refl.
Qed.

Lemma compareBundles_antisym (a b : Bundle) :
  compareBundles a b = CompOpp (compareBundles b a).
Proof.
  unfold compareBundles.
  rewrite (String.compare_antisym (Bundle_Package b) (Bundle_Package a)).
  rewrite (String.compare_antisym (Bundle_Name b) (Bundle_Name a)).
  destruct (String.compare (Bundle_Package a) (Bundle_Package b)); simpl; [|done|done].
  by destruct (String.compare (Bundle_Name a) (Bundle_Name b)).
Qed.

#[local] Instance bundleBefore_trans : Transitive bundleBefore.
Proof.
  intros a b c. unfold bundleBefore. rewrite !compareBundles_lt.
  intros [H1|[E1 H1]] [H2|[E2 H2]].
  - left. by eapply string_compare_lt_trans.
  - left. by rewrite <- E2.
  - left. by rewrite E1.
  - right. split; [congruence|]. by eapply string_compare_lt_trans.
Qed.

#[local] Instance bundleBefore_antisymm : AntiSymm (=) bundleBefore.
Proof.
  intros a b. unfold bundleBefore. intros H1 H2.
  rewrite compareBundles_antisym, H2 in H1. done.
Qed.

#[local] Instance bundleNotAfter_total : Total bundleNotAfter.
Proof.
  intros a b. unfold bundleNotAfter. rewrite (compareBundles_antisym b a).
  destruct (compareBundles a b); simpl; [by left|by left|by right].
Qed.


(** Sortedness for one relation, from sortedness for another that agrees
    with it on distinct elements of the list. *)
Lemma Sorted_change {A : Type} (R R' : relation A) (l : list A) :
  Sorted R l → NoDup l →
  (∀ x y, x ∈ l → y ∈ l → x ≠ y → R x y → R' x y) →
  Sorted R' l.
Proof.
  induction 1 as [|a l Hl IH Ha]; intros Hnd HR; [constructor|].
  apply NoDup_cons in Hnd as [Hnin Hnd].
  constructor.
  - apply IH; [done|]. intros x y Hx Hy. apply HR; by right.
  - destruct Ha as [|b l Hab]; constructor.
    apply HR; [by left|by right; left| |done].
    intros ->. apply Hnin. by left.
Qed.


End Order.

(** ** The bundles of the index *)

Section IndexBundles.

Context `{L : Library}.

Lemma indexPackage_bundles (pkgs : list declcfg.Package) (index : operatorIndex) :
  Index_BundlesByPkgAndName (fold_left indexPackage pkgs index)
  = Index_BundlesByPkgAndName index.
Proof.
  apply (fold_left_invariant indexPackage
           (λ i, Index_BundlesByPkgAndName i = Index_BundlesByPkgAndName index)); done.
Qed.

Lemma indexChannel_bundles (mem : gmap loc (list ChannelEntry))
    (chs : list declcfg.Channel) (index : operatorIndex) :
  Index_BundlesByPkgAndName (fold_left (indexChannel mem) chs index)
  = Index_BundlesByPkgAndName index.
Proof.
  apply (fold_left_invariant (indexChannel mem)
           (λ i, Index_BundlesByPkgAndName i = Index_BundlesByPkgAndName index)); done.
Qed.

Lemma indexBundle_bundleAt (index index' : operatorIndex) (b : Bundle) (pkg name : string) :
  indexBundle index b = Ok index' →
  bundleAt index' pkg name =
  if decide (pkg = Bundle_Package b ∧ name = Bundle_Name b) then
    match bundleAt index pkg name with
    | Some b' => Some b'
    | None => Some b
    end
  else bundleAt index pkg name.
Proof.
  unfold indexBundle, bundleAt. destruct (getBundleVersion b); [|done].
  intros [= <-]. simpl.
  destruct (decide (pkg = Bundle_Package b)) as [->|Hp].
  - rewrite lookup_insert_eq. simpl.
    destruct (decide (name = Bundle_Name b)) as [->|Hn].
    + rewrite decide_True by done.
      destruct (default ∅ _ !! Bundle_Name b) as [b'|] eqn:Hb; [done|].
      by rewrite lookup_insert_eq.
    + rewrite decide_False by (by intros [_ ?]).
      destruct (default ∅ _ !! Bundle_Name b) as [b'|] eqn:Hb; [done|].
      by rewrite lookup_insert_ne.
  - rewrite lookup_insert_ne by done. by rewrite decide_False by (by intros [? _]).
Qed.

(** The bundle the index holds under a package and a name is a bundle of the
    catalog with that package and that name, and every bundle of the catalog
    has one under its package and name. *)
Lemma indexFromDeclCfg_bundles (mem : gmap loc (list ChannelEntry))
    (cfg : DeclarativeConfig) (index : operatorIndex) :
  indexFromDeclCfg mem cfg = Ok index →
  (∀ pkg name b, bundleAt index pkg name = Some b →
     b ∈ elems (Bundles cfg) ∧ Bundle_Package b = pkg ∧ Bundle_Name b = name)
  ∧ (∀ b, b ∈ elems (Bundles cfg) →
          is_Some (bundleAt index (Bundle_Package b) (Bundle_Name b))).
Proof.
  unfold indexFromDeclCfg. intros Hrun.
  apply (foldResult_invariant indexBundle
           (λ pre i,
              (∀ pkg name b, bundleAt i pkg name = Some b →
                 b ∈ pre ∧ Bundle_Package b = pkg ∧ Bundle_Name b = name)
              ∧ (∀ b, b ∈ pre → is_Some (bundleAt i (Bundle_Package b) (Bundle_Name b))))
           _ [] _ index) in Hrun; [done| |].
  - split.
    + intros pkg name b. unfold bundleAt.
      rewrite indexChannel_bundles, indexPackage_bundles. simpl.
      by rewrite lookup_empty.
    + intros b Hb. by apply elem_of_nil in Hb.
  - intros pre b i i' [H1 H2] _ Hb. split.
    + intros pkg name b'. rewrite (indexBundle_bundleAt i i' b pkg name Hb).
      destruct (decide _) as [[-> ->]|Hne].
      * destruct (bundleAt i _ _) as [b0|] eqn:Hb0.
        -- intros [= <-]. destruct (H1 _ _ _ Hb0) as (? & ? & ?).
           split; [|done]. apply elem_of_app. by left.
        -- intros [= <-]. split; [|done]. apply elem_of_app. right. by left.
      * intros Hb'. destruct (H1 _ _ _ Hb') as (? & ? & ?).
        split; [|done]. apply elem_of_app. by left.
    + intros b' Hb'.
      rewrite (indexBundle_bundleAt i i' b _ _ Hb).
      destruct (decide _) as [[Hp Hn]|Hne].
      * by destruct (bundleAt i _ _).
      * apply elem_of_app in Hb' as [Hb'|Hb']; [by apply H2|].
        apply list_elem_of_singleton in Hb' as ->. by destruct Hne.
Qed.


End IndexBundles.

(** ** The names kept in full *)

Section KeptInFull.

Context `{L : Library}.




End KeptInFull.

(** ** The bundles put back *)

Section KeptBundles.

Context `{L : Library}.

Lemma NoDup_omap_inj {A B : Type} (g : A → option B) (l : list A) :
  (∀ x1 x2 y, g x1 = Some y → g x2 = Some y → x1 = x2) →
  NoDup l → NoDup (omap g l).
Proof.
  intros Hinj. induction 1 as [|x l Hx Hl IH]; simpl; [constructor|].
  destruct (g x) as [y|] eqn:Hg; [|done].
  constructor; [|done].
  intros (x' & Hx' & Hg')%list_elem_of_omap.
  by rewrite (Hinj x x' y Hg Hg') in Hx.
Qed.

Lemma elem_of_keptBundles (index : operatorIndex) (keep : gmap string (gset string))
    (b : Bundle) :
  b ∈ keptBundles index keep ↔
  ∃ pkg names name, keep !! pkg = Some names ∧ name ∈ names
                    ∧ bundleAt index pkg name = Some b.
Proof.
  unfold keptBundles. rewrite list_elem_of_bind. split.
  - intros ([pkg names] & Hb & Hk).
    apply list_elem_of_omap in Hb as (name & Hname & Hat).
    apply elem_of_map_to_list in Hk. apply elem_of_elements in Hname.
    by exists pkg, names, name.
  - intros (pkg & names & name & Hk & Hname & Hat).
    exists (pkg, names). split; [|by apply elem_of_map_to_list].
    apply list_elem_of_omap. exists name. split; [by apply elem_of_elements|done].
Qed.

(** No bundle is put back twice, whatever the names kept: the index holds a
    bundle under its own package and name only. *)
Lemma NoDup_keptBundles (index : operatorIndex) (keep : gmap string (gset string)) :
  (∀ pkg name b, bundleAt index pkg name = Some b →
     Bundle_Package b = pkg ∧ Bundle_Name b = name) →
  NoDup (keptBundles index keep).
Proof.
  intros Hkey. unfold keptBundles. apply NoDup_bind.
  - intros [pkg1 names1] [pkg2 names2] b H1 H2 Hb1 Hb2.
    apply list_elem_of_omap in Hb1 as (n1 & _ & Hat1).
    apply list_elem_of_omap in Hb2 as (n2 & _ & Hat2).
    apply Hkey in Hat1 as [Hp1 _]. apply Hkey in Hat2 as [Hp2 _].
    apply elem_of_map_to_list in H1, H2.
    assert (pkg1 = pkg2) as -> by congruence.
    f_equal. congruence.
  - intros [pkg names] _. apply NoDup_omap_inj; [|apply NoDup_elements].
    intros n1 n2 b Hat1 Hat2.
    apply Hkey in Hat1 as [_ Hn1]. apply Hkey in Hat2 as [_ Hn2]. congruence.
  - apply NoDup_map_to_list.
Qed.

End KeptBundles.

(** ** A filter with no package configured, in full *)

Section Unconfigured.

Context `{L : Library}.




End Unconfigured.

(** ** Deprecations with nothing to prune *)

Section NothingToPrune.

Context `{L : Library}.





End NothingToPrune.

(** ** C2: no package configured, in full *)

Section Rebuild.

Context `{L : Library}.


(** The options of a filter are those given at construction, applied in
    order to the default options. *)
Lemma NewMirrorFilter_opts (config : FilterConfiguration) (filterOpts : list FilterOption) :
  opts (NewMirrorFilter config filterOpts)
  = fold_left (λ o opt, opt o) filterOpts (mkOptions false).
Proof. unfold NewMirrorFilter. by destruct (fold_left _ (Config_Packages config) _). Qed.

End Rebuild.




(** * Further properties of the functions *)

(** ** setDefaultChannel *)

(** X1.  [setDefaultChannel] accepts a package exactly when the default
    channel it settles on (the one of the filter when it names one, else the
    one of the catalog) is empty or is one of the channel names it is given;
    the package is then left with that default channel, its name and its
    description untouched. *)
Theorem setDefaultChannel_accepts_iff
    (pkg pkg' : declcfg.Package) (pkgConfig : Package) (channels : gset string) :
  setDefaultChannel pkg pkgConfig channels = Ok pkg' ↔
  pkg' = withDefaultChannel pkg (effectiveDefault pkg pkgConfig)
  ∧ (effectiveDefault pkg pkgConfig = "" ∨ effectiveDefault pkg pkgConfig ∈ channels).
Proof.
  unfold setDefaultChannel, effectiveDefault, withDefaultChannel.
  destruct pkg as [name def descr]. simpl.
  destruct (decide (Pkg_DefaultChannel pkgConfig = "")) as [Hc|Hc].
  - destruct (decide (def = "")) as [->|Hd].
    + rewrite decide_True by done. split; [intros [= <-]; auto|by intros [-> _]].
    + rewrite decide_False by (by intros [? _]).
      rewrite decide_False by (by intros ?).
      destruct (decide (def ∈ channels)) as [Hin|Hout].
      * split; [intros [= <-]; auto|by intros [-> _]].
      * split; [done|]. by intros [_ [?|?]].
  - rewrite decide_False by (by intros [_ ?]).
    rewrite decide_True by done.
    destruct (decide (Pkg_DefaultChannel pkgConfig ∈ channels)) as [Hin|Hout].
    + split; [intros [= <-]; auto|by intros [-> _]].
    + split; [done|]. by intros [_ [?|?]].
Qed.

(** ** getBundleVersion *)

(** X2.  [getBundleVersion] is decided by the first property of type
    [olm.package]: the bundle has no version when it has none, the error of
    the decoder when its value does not decode, and otherwise what
    [StrictNewVersion] makes of its version; later package properties are not
    looked at. *)
Theorem getBundleVersion_first_package_property `{L : Library} (b : Bundle) :
  getBundleVersion b =
  match List.filter isPackageProperty (Bundle_Properties b) with
  | [] => Err (errNoPackageProperty b)
  | p :: _ => versionOfProperty p
  end.
Proof.
  unfold getBundleVersion. induction (Bundle_Properties b) as [|p props IH]; simpl; [done|].
  unfold isPackageProperty at 1.
  destruct (decide (Property_Type p = TypePackage)) as [Hp|Hp].
  - by rewrite bool_decide_eq_true_2.
  - by rewrite bool_decide_eq_false_2.
Qed.

(** ** indexFromDeclCfg *)

Section IndexOutcome.

Context `{L : Library}.

Lemma indexBundles_fail_iff (l : list Bundle) :
  ∀ (index : operatorIndex) (e : error),
    foldResult indexBundle l index = Err e ↔
    ∃ pre b post, l = pre ++ b :: post
                  ∧ Forall (λ b, isOk (getBundleVersion b) = true) pre
                  ∧ getBundleVersion b = Err e.
Proof.
  induction l as [|a l IH]; intros index e; simpl.
  - split; [done|]. intros (pre & b & post & Hl & _). by destruct pre.
  - unfold indexBundle at 1. destruct (getBundleVersion a) as [v|e1] eqn:Hv.
    + rewrite IH. split.
      * intros (pre & b & post & -> & Hpre & Hb).
        exists (a :: pre), b, post. repeat split; [|done].
        constructor; [by rewrite Hv|done].
      * intros (pre & b & post & Hl & Hpre & Hb).
        destruct pre as [|a0 pre]; simpl in Hl; injection Hl as <- ->.
        -- congruence.
        -- apply Forall_cons in Hpre as [_ Hpre]. by exists pre, b, post.
    + split.
      * intros [= <-]. exists [], a, l. by repeat split.
      * intros (pre & b & post & Hl & Hpre & Hb).
        destruct pre as [|a0 pre]; simpl in Hl; injection Hl as <- ->.
        -- congruence.
        -- apply Forall_cons in Hpre as [Ha _]. by rewrite Hv in Ha.
Qed.

(** X3.  The index is refused exactly when some bundle has no version, with
    the error of the first such bundle in the order of the catalog. *)
Theorem indexFromDeclCfg_fails_iff (mem : gmap loc (list ChannelEntry))
    (cfg : DeclarativeConfig) (e : error) :
  indexFromDeclCfg mem cfg = Err e ↔
  ∃ pre b post, elems (Bundles cfg) = pre ++ b :: post
                ∧ Forall (λ b, isOk (getBundleVersion b) = true) pre
                ∧ getBundleVersion b = Err e.
Proof. unfold indexFromDeclCfg. apply indexBundles_fail_iff. Qed.

End IndexOutcome.

Section IndexContents.

Context `{L : Library}.

Lemma indexChannel_channels (mem : gmap loc (list ChannelEntry)) (chs : list declcfg.Channel) :
  ∀ (index : operatorIndex) (pkg : string),
    default [] (Index_Channels (fold_left (indexChannel mem) chs index) !! pkg)
    = default [] (Index_Channels index !! pkg)
      ++ List.filter (λ ch, bool_decide (Channel_Package ch = pkg)) chs.
Proof.
  induction chs as [|c chs IH]; intros index pkg; simpl.
  - by rewrite app_nil_r.
  - rewrite IH. simpl.
    destruct (decide (Channel_Package c = pkg)) as [<-|Hne].
    + rewrite lookup_insert_eq, bool_decide_eq_true_2 by done. simpl.
      by rewrite <- app_assoc.
    + by rewrite lookup_insert_ne, bool_decide_eq_false_2 by done.
Qed.

Lemma indexChannel_names_defined (mem : gmap loc (list ChannelEntry))
    (chs : list declcfg.Channel) :
  ∀ (index : operatorIndex) (pkg : string),
    is_Some (Index_ChannelNames (fold_left (indexChannel mem) chs index) !! pkg)
    ↔ is_Some (Index_ChannelNames index !! pkg)
      ∨ List.filter (λ ch, bool_decide (Channel_Package ch = pkg)) chs ≠ [].
Proof.
  induction chs as [|c chs IH]; intros index pkg; simpl.
  - split; [by left|]. by intros [?|?].
  - rewrite IH. simpl.
    destruct (decide (Channel_Package c = pkg)) as [<-|Hne].
    + rewrite lookup_insert_eq, bool_decide_eq_true_2 by done.
      split; [by right|]. intros _. left. by eexists.
    + rewrite lookup_insert_ne, bool_decide_eq_false_2 by done. done.
Qed.

Lemma indexPackage_channels (pkgs : list declcfg.Package) (index : operatorIndex) :
  Index_Channels (fold_left indexPackage pkgs index) = Index_Channels index.
Proof.
  apply (fold_left_invariant indexPackage
           (λ i, Index_Channels i = Index_Channels index)); done.
Qed.

(** X4.  When the index is built, what it holds for a package is: in
    [Channels], the channels of that package in the order of the catalog; in
    [ChannelNames], their names, with an entry for the package exactly when
    it has a channel. *)
Theorem indexFromDeclCfg_channels (mem : gmap loc (list ChannelEntry))
    (cfg : DeclarativeConfig) (index : operatorIndex) (pkg : string) :
  indexFromDeclCfg mem cfg = Ok index →
  default [] (Index_Channels index !! pkg) = channelsOf cfg pkg
  ∧ default ∅ (Index_ChannelNames index !! pkg)
    = list_to_set (map Channel_Name (channelsOf cfg pkg))
  ∧ (is_Some (Index_ChannelNames index !! pkg) ↔ channelsOf cfg pkg ≠ []).
Proof.
  intros Hrun. split; [|split].
  - unfold indexFromDeclCfg in Hrun.
    apply (foldResult_invariant indexBundle
             (λ _ i, default [] (Index_Channels i !! pkg) = channelsOf cfg pkg)
             _ [] _ index) in Hrun; [done| |].
    + rewrite indexChannel_channels, indexPackage_channels. simpl.
      by rewrite lookup_empty.
    + intros _ b i i' Hi _ Hb. apply indexBundle_frame in Hb as (_ & -> & _). done.
  - by apply (indexFromDeclCfg_channel_names mem).
  - unfold indexFromDeclCfg in Hrun.
    apply (foldResult_invariant indexBundle
             (λ _ i, is_Some (Index_ChannelNames i !! pkg) ↔ channelsOf cfg pkg ≠ [])
             _ [] _ index) in Hrun; [done| |].
    + rewrite indexChannel_names_defined, indexPackage_names. simpl.
      rewrite lookup_empty. split; [intros [[? ?]|?]; done|by right].
    + intros _ b i i' Hi _ Hb. apply indexBundle_frame in Hb as (_ & _ & -> & _). done.
Qed.





End IndexContents.

(** X4 at work: package [p] of the example catalog. *)
Lemma indexFromDeclCfg_channels_witness :
  default [] (Index_Channels exampleIndex !! "p")
  = channelsOf (load Examples.catalog 1%positive) "p"
  ∧ default ∅ (Index_ChannelNames exampleIndex !! "p")
    = list_to_set (map Channel_Name (channelsOf (load Examples.catalog 1%positive) "p"))
  ∧ (is_Some (Index_ChannelNames exampleIndex !! "p")
     ↔ channelsOf (load Examples.catalog 1%positive) "p" ≠ []).
Proof.
  apply (indexFromDeclCfg_channels (entries Examples.catalog)).
  apply isOk_orElse. vm_compute; reflexivity.
Defined.


(** ** slices.DeleteFunc in place *)

Section InPlace.

Context {A : Type}.




End InPlace.

(** ** NewMirrorFilter and KeepMeta *)

Section Construction.

Lemma filter_snoc {A : Type} (g : A → bool) (l : list A) (x : A) :
  List.filter g (l ++ [x]) = List.filter g l ++ (if g x then [x] else []).
Proof. by rewrite List.filter_app. Qed.

Lemma last_app_singleton_or {A : Type} (l : list A) (x : A) (b : bool) :
  last (l ++ (if b then [x] else [])) = if b then Some x else last l.
Proof. destruct b; [apply last_snoc|by rewrite app_nil_r]. Qed.

(** The channel filters of one package filter, added to a map. *)
Lemma channels_added (chs : list Channel) :
  ∀ (m : gmap string Channel) (name : string),
    fold_left (λ pkgChannels ch, <[Ch_Name ch := ch]> pkgChannels) chs m !! name
    = match last (List.filter (λ ch, bool_decide (Ch_Name ch = name)) chs) with
      | Some ch => Some ch
      | None => m !! name
      end.
Proof.
  induction chs as [|c chs IH] using rev_ind; intros m name; [done|].
  rewrite fold_left_app. simpl. rewrite filter_snoc, last_app_singleton_or.
  destruct (decide (Ch_Name c = name)) as [<-|Hne].
  - by rewrite bool_decide_eq_true_2, lookup_insert_eq.
  - by rewrite bool_decide_eq_false_2, lookup_insert_ne, IH.
Qed.

(** The two maps of a filter, package after package. *)
Lemma packages_added (pkgs : list Package) (name : string) :
  let maps :=
    fold_left
      (λ '(pkgConfigs, chConfigs) pkg,
         let pkgChannels := default ∅ (chConfigs !! Pkg_Name pkg) in
         let pkgChannels :=
           fold_left (λ pkgChannels ch, <[Ch_Name ch := ch]> pkgChannels)
                     (Pkg_Channels pkg) pkgChannels in
         (<[Pkg_Name pkg := pkg]> pkgConfigs, <[Pkg_Name pkg := pkgChannels]> chConfigs))
      pkgs ((∅ : gmap string Package), (∅ : gmap string (gmap string Channel))) in
  let named := List.filter (λ pkg, bool_decide (Pkg_Name pkg = name)) pkgs in
  fst maps !! name = last named
  ∧ (is_Some (snd maps !! name) ↔ named ≠ [])
  ∧ ∀ ch, default ∅ (snd maps !! name) !! ch
          = last (List.filter (λ c, bool_decide (Ch_Name c = ch))
                              (concat (map Pkg_Channels named))).
Proof.
  induction pkgs as [|pkg pkgs IH] using rev_ind.
  - simpl. rewrite !lookup_empty. split; [done|]. split; [|done].
    split; [by intros [? ?]|done].
  - cbv zeta in *. rewrite fold_left_app. simpl.
    destruct (fold_left _ pkgs _) as [pkgConfigs chConfigs]. simpl in *.
    destruct IH as (IH1 & IH2 & IH3).
    rewrite filter_snoc.
    destruct (decide (Pkg_Name pkg = name)) as [<-|Hne].
    + rewrite bool_decide_eq_true_2 by done. rewrite !lookup_insert_eq. simpl.
      split; [by rewrite last_snoc|]. split.
      * split; [intros _ Hnil; by apply app_eq_nil in Hnil as [_ ?]|by eexists].
      * intros ch. rewrite channels_added, IH3.
        rewrite map_app, concat_app. simpl. rewrite app_nil_r, List.filter_app.
        destruct (List.filter _ (Pkg_Channels pkg)) as [|c cs] eqn:Hf using rev_ind.
        -- by rewrite app_nil_r.
        -- by rewrite app_assoc, !last_snoc.
    + rewrite bool_decide_eq_false_2 by done. rewrite app_nil_r.
      by rewrite !lookup_insert_ne.
Qed.

(** The two maps of a filter, read on the configuration. *)
Lemma NewMirrorFilter_lookup (config : FilterConfiguration) (filterOpts : list FilterOption)
    (name : string) :
  pkgConfigs (NewMirrorFilter config filterOpts) !! name = last (packagesNamed config name)
  ∧ (is_Some (chConfigs (NewMirrorFilter config filterOpts) !! name)
     ↔ packagesNamed config name ≠ [])
  ∧ ∀ ch, default ∅ (chConfigs (NewMirrorFilter config filterOpts) !! name) !! ch
          = last (channelFiltersNamed config name ch).
Proof.
  pose proof (packages_added (Config_Packages config) name) as H. cbv zeta in H.
  unfold NewMirrorFilter, packagesNamed, channelFiltersNamed, packagesNamed.
  by destruct (fold_left _ (Config_Packages config) _) as [pkgConfigs chConfigs].
Qed.

(** X6.  What a filter holds of a configuration: for a package name, the
    last package filter of that name; channel filters, however, come from
    every package filter of that name, the last one of a given channel name
    winning; and the package name is known to [chConfigs] exactly when some
    package filter has it. *)
Theorem NewMirrorFilter_maps (config : FilterConfiguration) (filterOpts : list FilterOption)
    (name : string) :
  pkgConfigs (NewMirrorFilter config filterOpts) !! name = last (packagesNamed config name)
  ∧ (is_Some (chConfigs (NewMirrorFilter config filterOpts) !! name)
     ↔ packagesNamed config name ≠ [])
  ∧ ∀ ch, default ∅ (chConfigs (NewMirrorFilter config filterOpts) !! name) !! ch
          = last (channelFiltersNamed config name ch).
Proof. apply NewMirrorFilter_lookup. Qed.

(** X7.  [KeepMeta] keeps a record exactly when the package it belongs to
    (its name for an [olm.package] record, its package otherwise) is the name
    of a package filter of the configuration. *)
Theorem KeepMeta_iff (config : FilterConfiguration) (filterOpts : list FilterOption)
    (meta : Meta) :
  KeepMeta (NewMirrorFilter config filterOpts) meta = true
  ↔ metaPackageName meta ∈ map Pkg_Name (Config_Packages config).
Proof.
  destruct (NewMirrorFilter_lookup config filterOpts (metaPackageName meta)) as (_ & Hch & _).
  assert (packagesNamed config (metaPackageName meta) ≠ []
          ↔ metaPackageName meta ∈ map Pkg_Name (Config_Packages config)) as Hnamed.
  { unfold packagesNamed. rewrite list_elem_of_fmap. split.
    - intros Hne. destruct (List.filter _ _) as [|pkg l] eqn:Hf; [done|].
      assert (In pkg (List.filter (λ pkg, bool_decide (Pkg_Name pkg = metaPackageName meta))
                        (Config_Packages config))) as Hin by (rewrite Hf; by left).
      apply filter_In in Hin as [Hin Hname]. apply bool_decide_eq_true_1 in Hname.
      exists pkg. split; [done|by apply list_elem_of_In].
    - intros (pkg & Hname & Hin) Hnil.
      assert (In pkg (List.filter (λ pkg, bool_decide (Pkg_Name pkg = metaPackageName meta))
                        (Config_Packages config))) as Hin'.
      { apply filter_In. split; [by apply list_elem_of_In|by apply bool_decide_eq_true_2]. }
      by rewrite Hnil in Hin'. }
  rewrite <- Hnamed, <- Hch. unfold KeepMeta. fold (metaPackageName meta).
  destruct (decide (size (chConfigs (NewMirrorFilter config filterOpts)) = 0)) as [Hz|Hnz].
  - apply map_size_empty_iff in Hz. rewrite Hz, lookup_empty.
    split; [done|by intros [? ?]].
  - apply bool_decide_eq_true.
Qed.

End Construction.

(** ** filterByPackageAndChannels *)

Section Pruning.

Context `{L : Library}.

Lemma elems_nilIfEmpty {A : Type} (l : list A) : elems (nilIfEmpty l) = l.
Proof. by destruct l. Qed.

Lemma filter_idem {A : Type} (g : A → bool) (l : list A) :
  List.filter g (List.filter g l) = List.filter g l.
Proof.
  induction l as [|x l IH]; simpl; [done|].
  destruct (g x) eqn:Hx; simpl; [|done]. by rewrite Hx, IH.
Qed.

Lemma filter_sublist {A : Type} (g : A → bool) (l : list A) : sublist (List.filter g l) l.
Proof.
  induction l as [|x l IH]; simpl; [constructor|].
  destruct (g x); by constructor.
Qed.

(** X8.  Pruning a pruned catalog again changes nothing. *)
Theorem filterByPackageAndChannels_idempotent (f : mirrorFilter) (fbc : DeclarativeConfig) :
  filterByPackageAndChannels f (filterByPackageAndChannels f fbc)
  = filterByPackageAndChannels f fbc.
Proof.
  unfold filterByPackageAndChannels. simpl.
  by rewrite !elems_nilIfEmpty, !filter_idem.
Qed.

(** X9.  The pruning on packages and channels keeps source order: each of
    the five lists of the pruned catalog is a sublist of the list it comes
    from; and it keeps every record that belongs to no package. *)
Theorem filterByPackageAndChannels_keeps_order (f : mirrorFilter) (fbc : DeclarativeConfig) :
  sublist (elems (Packages (filterByPackageAndChannels f fbc))) (elems (Packages fbc))
  ∧ sublist (elems (Channels (filterByPackageAndChannels f fbc))) (elems (Channels fbc))
  ∧ sublist (elems (Bundles (filterByPackageAndChannels f fbc))) (elems (Bundles fbc))
  ∧ sublist (elems (Deprecations (filterByPackageAndChannels f fbc)))
            (elems (Deprecations fbc))
  ∧ sublist (elems (Others (filterByPackageAndChannels f fbc))) (elems (Others fbc))
  ∧ List.filter (λ meta, bool_decide (Meta_Package meta = ""))
                (elems (Others (filterByPackageAndChannels f fbc)))
    = List.filter (λ meta, bool_decide (Meta_Package meta = "")) (elems (Others fbc)).
Proof.
  unfold filterByPackageAndChannels. simpl. rewrite !elems_nilIfEmpty.
  repeat split; try apply filter_sublist.
  induction (elems (Others fbc)) as [|meta l IH]; simpl; [done|].
  destruct (decide (Meta_Package meta = "")) as [Hm|Hm].
  - rewrite bool_decide_eq_true_2 by done. simpl.
    rewrite bool_decide_eq_true_2 by done. by rewrite IH.
  - rewrite bool_decide_eq_false_2 by done. simpl.
    destruct (keepsPackage f (Meta_Package meta)); simpl; [|done].
    by rewrite bool_decide_eq_false_2.
Qed.

End Pruning.

(** X10.  Pruning by the filter of a configuration: a channel of the catalog
    is kept exactly when some package filter has the name of its package
    and, among the channel filters of the package filters of that name,
    either there is none or one has the name of the channel. *)
Theorem filterByPackageAndChannels_channels (config : FilterConfiguration)
    (filterOpts : list FilterOption) (fbc : DeclarativeConfig) (ch : declcfg.Channel) :
  ch ∈ elems (Channels (filterByPackageAndChannels (NewMirrorFilter config filterOpts) fbc))
  ↔ ch ∈ elems (Channels fbc)
    ∧ packagesNamed config (Channel_Package ch) ≠ []
    ∧ (concat (map Pkg_Channels (packagesNamed config (Channel_Package ch))) = []
       ∨ Channel_Name ch
         ∈ map Ch_Name (concat (map Pkg_Channels (packagesNamed config (Channel_Package ch))))).
Proof.
  destruct (NewMirrorFilter_lookup config filterOpts (Channel_Package ch)) as (_ & Hdef & Hch).
  unfold filterByPackageAndChannels. simpl. rewrite elems_nilIfEmpty.
  rewrite list_elem_of_In, filter_In, <- list_elem_of_In.
  apply and_iff_compat_l.
  set (chs := concat (map Pkg_Channels (packagesNamed config (Channel_Package ch)))) in *.
  assert (∀ name, is_Some (last (List.filter (λ c, bool_decide (Ch_Name c = name)) chs))
                  ↔ name ∈ map Ch_Name chs) as Hlast.
  { intros name. rewrite list_elem_of_fmap. split.
    - intros [c Hc]. exists c.
      assert (In c (List.filter (λ c, bool_decide (Ch_Name c = name)) chs)) as Hin.
      { apply list_elem_of_In. by eapply last_Some_elem_of. }
      apply filter_In in Hin as [Hin Hn]. apply bool_decide_eq_true_1 in Hn.
      split; [done|by apply list_elem_of_In].
    - intros (c & -> & Hin).
      destruct (last (List.filter (λ c0, bool_decide (Ch_Name c0 = Ch_Name c)) chs))
        as [c'|] eqn:Hl; [by eexists|].
      apply last_None in Hl.
      assert (In c (List.filter (λ c0, bool_decide (Ch_Name c0 = Ch_Name c)) chs)) as Hin'.
      { apply filter_In. split; [by apply list_elem_of_In|by apply bool_decide_eq_true_2]. }
      by rewrite Hl in Hin'. }
  unfold keepsChannel.
  destruct (chConfigs (NewMirrorFilter config filterOpts) !! Channel_Package ch)
    as [chSet|] eqn:Hset; simpl in *.
  - assert (packagesNamed config (Channel_Package ch) ≠ []) as Hne by (apply Hdef; by eexists).
    destruct (decide (0 < size chSet)) as [Hpos|Hzero].
    + rewrite bool_decide_eq_true. unfold channelFiltersNamed in Hch. fold chs in Hch.
      rewrite Hch, Hlast. split; [by auto|].
      intros (_ & [Hnil|Hin]); [|done].
      exfalso. assert (chSet = ∅) as ->; [|by rewrite map_size_empty in Hpos; lia].
      apply map_empty. intros name. rewrite Hch. apply last_None. by rewrite Hnil.
    + split; [|done]. intros _. split; [done|]. left.
      assert (chSet = ∅) as -> by (apply map_size_empty_iff; lia).
      destruct chs as [|c chs'] eqn:Hchs; [done|].
      specialize (Hch (Ch_Name c)). rewrite lookup_empty in Hch.
      symmetry in Hch. apply last_None in Hch.
      unfold channelFiltersNamed in Hch. fold chs in Hch. rewrite Hchs in Hch.
      simpl in Hch. by rewrite bool_decide_eq_true_2 in Hch.
  - split; [done|]. intros (Hne & _). apply Hdef in Hne. by destruct Hne.
Qed.

(** ** FilterCatalog: outcomes *)

(** X11.  The call returns both a catalog and an error exactly when the index
    of the pruned catalog is refused: the error is the one of the index, and
    the catalog is the object the pruned catalog was to be built in, holding
    the pruned catalog.  Every later failure returns no catalog. *)
Theorem FilterCatalog_catalog_with_error `{L : Library}
    (f : mirrorFilter) (p out : loc) (h : heap) (e : error) :
  fst (FilterCatalog f (Some p) h) = (Some out, Some e)
  ↔ indexFromDeclCfg (entries h) (startCatalog f h p) = Err e
    ∧ out = outputOf f p (fst (allocate h)).
Proof.
  rewrite FilterCatalog_unfold. cbv zeta.
  destruct (indexFromDeclCfg _ _) as [index|e'].
  - destruct (packagesLoop f _) as [s1 [e1|]]; [by split; [|intros [? _]]|].
    destruct (channelsLoop f s1) as [s2 [e2|]]; by split; [|intros [? _]].
  - simpl. split; [by intros [= <- <-]|]. by intros [[= ->] ->].
Qed.

Section Outcome.

Context `{L : Library}.

(** The catalog behind the pointer a failed index build returns. *)
Lemma FilterCatalog_refused_index (f : mirrorFilter) (p : loc) (h : heap) (e : error) :
  indexFromDeclCfg (entries h) (startCatalog f h p) = Err e →
  load (snd (FilterCatalog f (Some p) h)) (outputOf f p (fst (allocate h)))
  = startCatalog f h p.
Proof.
  intros He. rewrite FilterCatalog_unfold. cbv zeta. rewrite He. simpl.
  unfold load. simpl. by rewrite lookup_insert_eq.
Qed.

(** A successful call, step by step. *)
Lemma FilterCatalog_succeeds_inv (f : mirrorFilter) (p q : loc) (h : heap) :
  fst (FilterCatalog f (Some p) h) = (Some q, None) →
  ∃ index s1 s2,
    indexFromDeclCfg (entries h) (startCatalog f h p) = Ok index
    ∧ packagesLoop f (initialState f h p index) = (s1, None)
    ∧ channelsLoop f s1 = (s2, None)
    ∧ q = outputOf f p (fst (allocate h))
    ∧ snd (FilterCatalog f (Some p) h) = commit (snd (allocate h)) q (rebuildBundles s2).
Proof.
  rewrite FilterCatalog_unfold. cbv zeta.
  destruct (indexFromDeclCfg _ _) as [index|e']; [|done].
  destruct (packagesLoop f _) as [s1 [e1|]] eqn:H1; [done|].
  destruct (channelsLoop f s1) as [s2 [e2|]] eqn:H2; [done|].
  simpl. intros [= <-]. by exists index, s1, s2.
Qed.

(** An iteration of the package loop keeps the name and the description of
    every package, and every package that has no filter. *)
Lemma packageBody_packages (f : mirrorFilter) (j : nat) (s : state) :
  Forall2 (λ a b, Package_Name a = Package_Name b
                  ∧ Package_Description a = Package_Description b
                  ∧ (pkgConfigs f !! Package_Name b = None → a = b))
          (elems (Packages (filteredFBC (fst (packageBody f j s)))))
          (elems (Packages (filteredFBC s))).
Proof.
  assert (∀ l : list declcfg.Package,
            Forall2 (λ a b, Package_Name a = Package_Name b
                            ∧ Package_Description a = Package_Description b
                            ∧ (pkgConfigs f !! Package_Name b = None → a = b)) l l) as Hrefl.
  { intros l. apply Forall_Forall2_diag, Forall_forall. by intros. }
  unfold packageBody.
  destruct (elems (Packages (filteredFBC s)) !! j) as [pkg|] eqn:Hj; [|apply Hrefl].
  destruct (pkgConfigs f !! Package_Name pkg) as [pkgConfig|] eqn:Hcfg.
  - destruct (setDefaultChannel _ _ _) as [pkg'|e]; [|apply Hrefl].
    match goal with |- context [keepDefault f ?t pkg'] => set (s1 := t) end.
    assert (Forall2 (λ a b, Package_Name a = Package_Name b
                            ∧ Package_Description a = Package_Description b
                            ∧ (pkgConfigs f !! Package_Name b = None → a = b))
                    (elems (Packages (filteredFBC s1))) (elems (Packages (filteredFBC s))))
      as Hs1.
    { unfold s1. simpl. rewrite elems_setAt.
      rewrite <- (list_insert_id (elems (Packages (filteredFBC s))) j pkg Hj) at 2.
      apply Forall2_insert; [apply Hrefl|].
      repeat split. intros Hnone. by rewrite Hnone in Hcfg. }
    destruct (_ && _); [|done].
    destruct (keepDefault_frame f s1 pkg') as [_ Hpk]. by rewrite Hpk.
  - destruct (negb _); [|apply Hrefl].
    destruct (keepDefault_frame f s pkg) as [_ Hpk]. rewrite Hpk. apply Hrefl.
Qed.

Lemma packagesLoop_packages (f : mirrorFilter) (i n : nat) (s : state) :
  Forall2 (λ a b, Package_Name a = Package_Name b
                  ∧ Package_Description a = Package_Description b
                  ∧ (pkgConfigs f !! Package_Name b = None → a = b))
          (elems (Packages (filteredFBC (fst (forRange (packageBody f) i n s)))))
          (elems (Packages (filteredFBC s))).
Proof.
  apply (forRange_preserves (packageBody f)
           (λ t, Forall2 (λ a b, Package_Name a = Package_Name b
                                 ∧ Package_Description a = Package_Description b
                                 ∧ (pkgConfigs f !! Package_Name b = None → a = b))
                         (elems (Packages (filteredFBC t))) (elems (Packages (filteredFBC s))))).
  - apply Forall_Forall2_diag, Forall_forall. by intros.
  - intros j t Ht. pose proof (packageBody_packages f j t) as Hstep.
    eapply Forall2_trans; [|exact Hstep|exact Ht].
    intros a b c (Hn1 & Hd1 & He1) (Hn2 & Hd2 & He2).
    repeat split; try congruence.
    intros Hnone. rewrite He1; [by apply He2|]. by rewrite Hn2.
Qed.

(** X12.  On success the packages of the returned catalog are those of the
    pruned catalog, one for one and in the same order, with their names and
    descriptions; a package that has no filter is returned as it was; and the
    other records of the returned catalog are those of the pruned catalog. *)
Theorem FilterCatalog_packages_and_others (f : mirrorFilter) (p q : loc) (h : heap) :
  fst (FilterCatalog f (Some p) h) = (Some q, None) →
  Forall2 (λ a b, Package_Name a = Package_Name b
                  ∧ Package_Description a = Package_Description b
                  ∧ (pkgConfigs f !! Package_Name b = None → a = b))
          (V_Packages (viewOf (snd (FilterCatalog f (Some p) h)) q))
          (elems (Packages (startCatalog f h p)))
  ∧ V_Others (viewOf (snd (FilterCatalog f (Some p) h)) q)
    = elems (Others (startCatalog f h p)).
Proof.
  intros Hok.
  destruct (FilterCatalog_succeeds_inv f p q h Hok) as (index & s1 & s2 & _ & H1 & H2 & _ & ->).
  unfold viewOf. rewrite load_commit. simpl.
  destruct (rebuildBundles_frame s2) as ((Hp3 & Ho3 & _) & _).
  pose proof (channelsLoop_frame f 0 (length (elems (Channels (filteredFBC s1)))) s1) as Hch.
  unfold channelsLoop in H2. rewrite H2 in Hch. destruct Hch as (Hp2 & Ho2 & _).
  pose proof (packagesLoop_packages f 0 (length (elems (Packages (startCatalog f h p))))
                (initialState f h p index)) as Hpk.
  pose proof (forRange_preserves (packageBody f)
                (λ t, packageLoopFrame (initialState f h p index) t)
                (length (elems (Packages (startCatalog f h p)))) 0
                (initialState f h p index) (packageLoopFrame_refl _)) as Hfr.
  unfold packagesLoop in H1. simpl in H1, Hp2, Ho2. rewrite H1 in Hpk, Hfr. simpl in Hpk, Hfr.
  rewrite Hp3, Ho3, Hp2, Ho2.
  split; [done|].
  destruct Hfr as (_ & _ & Ho1 & _); [|by rewrite Ho1].
  intros j t Ht. eapply packageLoopFrame_trans; [done|apply packageBody_frame].
Qed.

End Outcome.

(** X12 at work: the example catalog filtered for package [p] alone. *)
Lemma FilterCatalog_packages_and_others_witness :
  Forall2 (λ a b, Package_Name a = Package_Name b
                  ∧ Package_Description a = Package_Description b
                  ∧ (pkgConfigs Examples.plainFilter !! Package_Name b = None → a = b))
          (V_Packages (viewOf (snd (FilterCatalog Examples.plainFilter (Some 1%positive)
                                      Examples.catalog)) 2%positive))
          (elems (Packages (startCatalog Examples.plainFilter Examples.catalog 1%positive)))
  ∧ V_Others (viewOf (snd (FilterCatalog Examples.plainFilter (Some 1%positive)
                             Examples.catalog)) 2%positive)
    = elems (Others (startCatalog Examples.plainFilter Examples.catalog 1%positive)).
Proof.
  apply (FilterCatalog_packages_and_others Examples.plainFilter 1%positive 2%positive
           Examples.catalog).
  vm_compute; reflexivity.
Defined.

(** ** FilterCatalog: what a plain filter leaves of the input *)

Section PlainFilter.

Context `{L : Library}.

Lemma plain_unconstrained (f : mirrorFilter) (ch : declcfg.Channel) :
  plain f → unconstrained f ch.
Proof.
  intros [Hpk Hch]. unfold unconstrained, versionRangeOf, selectedOf, chConfigOf, pkgConfigOf.
  assert (Pkg_VersionRange (default zeroPackage (pkgConfigs f !! Channel_Package ch)) = ""
          ∧ Pkg_SelectedBundles (default zeroPackage (pkgConfigs f !! Channel_Package ch)) = [])
    as [-> ->].
  { destruct (pkgConfigs f !! Channel_Package ch) as [c|] eqn:Hc; [|done]. by eapply Hpk. }
  assert (Ch_VersionRange
            (default zeroChannel
               (default ∅ (chConfigs f !! Channel_Package ch) !! Channel_Name ch)) = "") as ->.
  { destruct (chConfigs f !! Channel_Package ch) as [m|] eqn:Hm; [|done]. simpl.
    destruct (m !! Channel_Name ch) as [c|] eqn:Hc; [|done]. by eapply Hch. }
  done.
Qed.

(** On an unconstrained channel the loop writes no array of the store: it
    allocates one, at most. *)
Lemma channelBody_unconstrained_store (f : mirrorFilter) (j : nat) (s : state)
    (a : loc) (l : list ChannelEntry) :
  (∀ ch, unconstrained f ch) →
  chanEntries s !! a = Some l →
  chanEntries (fst (channelBody f j s)) !! a = Some l.
Proof.
  intros Hun Ha. unfold channelBody.
  destruct (elems (Channels (filteredFBC s)) !! j) as [ch|]; [|done].
  destruct (Hun ch) as [-> ->]. simpl. rewrite !andb_false_r.
  destruct (Full (opts f)); [done|].
  unfold filterChannelHead. destruct (newChannel _) as [c|e]; [|done]. simpl.
  rewrite lookup_insert_ne; [done|].
  intros Heq. pose proof (is_fresh (dom (chanEntries s))) as Hfresh.
  rewrite Heq in Hfresh. apply Hfresh. apply elem_of_dom. by eexists.
Qed.

(** With packages configured the call never writes the input object. *)
Lemma FilterCatalog_input_object (f : mirrorFilter) (p : loc) (h : heap) :
  size (pkgConfigs f) ≠ 0 → is_Some (configs h !! p) →
  load (snd (FilterCatalog f (Some p) h)) p = load h p.
Proof.
  intros Hsize Hp.
  destruct (allocate_other h p Hp) as [Hqp Hh1].
  assert (outputOf f p (fst (allocate h)) ≠ p) as Hout.
  { unfold outputOf. by rewrite decide_True. }
  assert (∀ s, load (commit (snd (allocate h)) (outputOf f p (fst (allocate h))) s) p
               = load h p) as Hcommit.
  { intros s. unfold load. rewrite commit_other by done. by rewrite Hh1. }
  rewrite FilterCatalog_unfold. cbv zeta.
  destruct (indexFromDeclCfg _ _) as [index|e'].
  - destruct (packagesLoop f _) as [s1 [e1|]]; [apply Hcommit|].
    destruct (channelsLoop f s1) as [s2 [e2|]]; apply Hcommit.
  - cbn [fst snd]. unfold load. cbn [configs]. rewrite lookup_insert_ne by done. by rewrite Hh1.
Qed.

(** The store of channel entries when the call returns, whatever the
    outcome. *)
Lemma FilterCatalog_plain_store (f : mirrorFilter) (p : loc) (h : heap)
    (a : loc) (l : list ChannelEntry) :
  plain f →
  entries h !! a = Some l →
  entries (snd (FilterCatalog f (Some p) h)) !! a = Some l.
Proof.
  intros Hplain Ha.
  assert (∀ s, chanEntries s = entries h →
               chanEntries (fst (packagesLoop f s)) = entries h) as Hpkgs.
  { intros s Hs. unfold packagesLoop.
    apply (forRange_preserves (packageBody f) (λ t, chanEntries t = entries h)); [done|].
    intros j t Ht. destruct (packageBody_frame f j t) as [Hfr _].
    destruct Hfr as (_ & _ & _ & _ & _ & _ & _ & _ & -> & _). done. }
  assert (∀ s, chanEntries s !! a = Some l →
               chanEntries (fst (channelsLoop f s)) !! a = Some l) as Hchs.
  { intros s Hs. unfold channelsLoop.
    apply (forRange_preserves (channelBody f) (λ t, chanEntries t !! a = Some l)); [done|].
    intros j t Ht. apply channelBody_unconstrained_store; [|done].
    intros ch. by apply plain_unconstrained. }
  rewrite FilterCatalog_unfold. cbv zeta.
  destruct (indexFromDeclCfg _ _) as [index|e']; [|done].
  specialize (Hpkgs (initialState f h p index) eq_refl).
  destruct (packagesLoop f _) as [s1 [e1|]]; simpl in *; [by rewrite Hpkgs|].
  specialize (Hchs s1). rewrite Hpkgs in Hchs. specialize (Hchs Ha).
  destruct (channelsLoop f s1) as [s2 [e2|]]; simpl in *; [done|].
  destruct (rebuildBundles_frame s2) as (_ & _ & ->). done.
Qed.

(** X13.  A filter with packages configured that asks for no version range
    and selects no bundle leaves the input catalog with its packages, its
    channels and their entries, its bundles and its other records, whatever
    the outcome of the call: the arrays of channel entries are only read, the
    heads being copied to new arrays. *)
Theorem FilterCatalog_plain_input_untouched (f : mirrorFilter) (p : loc) (h : heap) :
  plain f → size (pkgConfigs f) ≠ 0 → is_Some (configs h !! p) → channelsAllocated h p →
  V_Packages (viewOf (snd (FilterCatalog f (Some p) h)) p) = V_Packages (viewOf h p)
  ∧ V_Channels (viewOf (snd (FilterCatalog f (Some p) h)) p) = V_Channels (viewOf h p)
  ∧ V_Bundles (viewOf (snd (FilterCatalog f (Some p) h)) p) = V_Bundles (viewOf h p)
  ∧ V_Others (viewOf (snd (FilterCatalog f (Some p) h)) p) = V_Others (viewOf h p).
Proof.
  intros Hplain Hsize Hp Halloc.
  pose proof (FilterCatalog_input_object f p h Hsize Hp) as Hload.
  unfold viewOf. cbn [V_Packages V_Channels V_Bundles V_Others]. rewrite Hload. repeat split.
  apply map_ext_in. intros ch Hch. apply list_elem_of_In in Hch.
  unfold loadChannel. f_equal. unfold readSlice.
  destruct (Channel_Entries ch) as [sl|] eqn:Hsl; [|done].
  destruct (Halloc ch sl Hch Hsl) as [l Hl].
  by rewrite (FilterCatalog_plain_store f p h _ l Hplain Hl), Hl.
Qed.

End PlainFilter.

(** X13 at work: the example catalog filtered for package [p] alone. *)
Lemma FilterCatalog_plain_input_witness :
  V_Packages (viewOf (snd (FilterCatalog Examples.plainFilter (Some 1%positive)
                             Examples.catalog)) 1%positive)
  = V_Packages (viewOf Examples.catalog 1%positive)
  ∧ V_Channels (viewOf (snd (FilterCatalog Examples.plainFilter (Some 1%positive)
                               Examples.catalog)) 1%positive)
    = V_Channels (viewOf Examples.catalog 1%positive)
  ∧ V_Bundles (viewOf (snd (FilterCatalog Examples.plainFilter (Some 1%positive)
                              Examples.catalog)) 1%positive)
    = V_Bundles (viewOf Examples.catalog 1%positive)
  ∧ V_Others (viewOf (snd (FilterCatalog Examples.plainFilter (Some 1%positive)
                             Examples.catalog)) 1%positive)
    = V_Others (viewOf Examples.catalog 1%positive).
Proof.
  apply (FilterCatalog_plain_input_untouched Examples.plainFilter 1%positive Examples.catalog).
  - split.
    + intros name pkgConfig Hcfg.
      destruct (decide (name = "p")) as [->|Hne].
      * vm_compute in Hcfg. by injection Hcfg as <-.
      * exfalso. revert Hcfg. unfold Examples.plainFilter, NewMirrorFilter. simpl.
        by rewrite lookup_insert_ne, lookup_empty.
    + intros name channels ch channel Hm Hc.
      destruct (decide (name = "p")) as [->|Hne].
      * exfalso. revert Hm Hc. unfold Examples.plainFilter, NewMirrorFilter. simpl.
        rewrite lookup_insert_eq. intros [= <-]. by rewrite lookup_empty.
      * exfalso. revert Hm. unfold Examples.plainFilter, NewMirrorFilter. simpl.
        by rewrite lookup_insert_ne, lookup_empty.
  - vm_compute. discriminate.
  - vm_compute. by eexists.
  - intros ch sl Hch Hsl.
    assert (elems (Channels (load Examples.catalog 1%positive))
            = [mkChannel "ch1" "p" (Some (Slice 1 2)); mkChannel "ch2" "p" (Some (Slice 2 1))])
      as Hchs by (vm_compute; reflexivity).
    rewrite Hchs in Hch. apply list_elem_of_In in Hch.
    destruct Hch as [<-|[<-|[]]]; injection Hsl as <-; vm_compute; by eexists.
Defined.

(** ** FilterCatalog: the bundles of the returned catalog *)

Section OutputBundles.

Context `{L : Library}.

Lemma deleteEntries_bundles (s : state) (j : nat) (del : ChannelEntry → bool) :
  Bundles (filteredFBC (deleteEntries s j del)) = Bundles (filteredFBC s).
Proof.
  unfold deleteEntries.
  destruct (elems (Channels (filteredFBC s)) !! j) as [cur|]; [|done].
  by destruct (DeleteFunc _ _ _ _) as [sl mem].
Qed.

Lemma channelBody_bundles (f : mirrorFilter) (j : nat) (s : state) :
  Bundles (filteredFBC (fst (channelBody f j s))) = Bundles (filteredFBC s).
Proof.
  unfold channelBody.
  destruct (elems (Channels (filteredFBC s)) !! j) as [ch|]; [|done].
  repeat (match goal with
          | |- context [if ?b then _ else _] => destruct b
          end; simpl; try done).
  - destruct (newChannel _) as [c|e]; simpl; by rewrite deleteEntries_bundles.
  - destruct (NewConstraint _) as [rangeConstraint|e]; [|done].
    destruct (newChannel _) as [filteringChannel|e]; [|done].
    destruct (decide _); [done|]. simpl. by rewrite deleteEntries_bundles.
  - unfold filterChannelHead. by destruct (newChannel _) as [filteringChannel|e].
Qed.

(** The bundles put back are in strictly increasing order. *)
Lemma rebuilt_bundles_sorted (index : operatorIndex) (keep : gmap string (gset string)) :
  (∀ pkg name b, bundleAt index pkg name = Some b →
     Bundle_Package b = pkg ∧ Bundle_Name b = name) →
  Sorted bundleBefore (SortFunc compareBundles (keptBundles index keep)).
Proof.
  intros Hkey.
  pose proof (NoDup_keptBundles index keep Hkey) as Hnd.
  assert (SortFunc compareBundles (keptBundles index keep) ≡ₚ keptBundles index keep) as Hperm.
  { unfold SortFunc. apply merge_sort_Permutation. }
  apply (Sorted_change bundleNotAfter).
  - unfold SortFunc. apply (@Sorted_merge_sort _ bundleNotAfter _ bundleNotAfter_total).
  - by rewrite Hperm.
  - intros x y Hx Hy Hne Hxy. rewrite Hperm in Hx, Hy.
    unfold bundleNotAfter in Hxy. unfold bundleBefore.
    destruct (compareBundles x y) eqn:Hc; [|done|done].
    destruct Hne. apply compareBundles_eq in Hc as [Hp Hn].
    apply elem_of_keptBundles in Hx as (pkg1 & names1 & n1 & _ & _ & H1).
    apply elem_of_keptBundles in Hy as (pkg2 & names2 & n2 & _ & _ & H2).
    destruct (Hkey _ _ _ H1) as [<- <-]. destruct (Hkey _ _ _ H2) as [<- <-].
    rewrite Hp, Hn in H1. congruence.
Qed.

(** X14.  On success the bundles of the returned catalog are bundles of the
    pruned catalog; and unless no name was kept, in which case they are the
    bundles of the pruned catalog as they were listed, they come in strictly
    increasing order of package and name, none twice. *)
Theorem FilterCatalog_bundles_sorted (f : mirrorFilter) (p q : loc) (h : heap) :
  fst (FilterCatalog f (Some p) h) = (Some q, None) →
  (V_Bundles (viewOf (snd (FilterCatalog f (Some p) h)) q) = elems (Bundles (startCatalog f h p))
   ∨ Sorted bundleBefore (V_Bundles (viewOf (snd (FilterCatalog f (Some p) h)) q)))
  ∧ ∀ b, b ∈ V_Bundles (viewOf (snd (FilterCatalog f (Some p) h)) q) →
         b ∈ elems (Bundles (startCatalog f h p)).
Proof.
  intros Hok.
  destruct (FilterCatalog_succeeds_inv f p q h Hok)
    as (index & s1 & s2 & Hindex & H1 & H2 & _ & ->).
  destruct (indexFromDeclCfg_bundles _ _ _ Hindex) as [Hat _].
  pose proof (forRange_preserves (packageBody f)
                (λ t, packageLoopFrame (initialState f h p index) t)
                (length (elems (Packages (startCatalog f h p)))) 0
                (initialState f h p index) (packageLoopFrame_refl _)) as Hfr.
  unfold packagesLoop in H1. simpl in H1. rewrite H1 in Hfr. simpl in Hfr.
  destruct Hfr as (Hb1 & _ & _ & _ & _ & _ & Hidx1 & _).
  { intros j t Ht. eapply packageLoopFrame_trans; [done|apply packageBody_frame]. }
  pose proof (channelsLoop_frame f 0 (length (elems (Channels (filteredFBC s1)))) s1) as Hch.
  pose proof (forRange_preserves (channelBody f)
                (λ t, Bundles (filteredFBC t) = Bundles (filteredFBC s1))
                (length (elems (Channels (filteredFBC s1)))) 0 s1 eq_refl) as Hb2.
  unfold channelsLoop in H2. rewrite H2 in Hch, Hb2. simpl in Hch, Hb2.
  destruct Hch as (_ & _ & Hidx2 & _).
  assert (Bundles (filteredFBC s2) = Bundles (startCatalog f h p)) as Hbundles.
  { rewrite Hb2; [done|]. intros j t Ht. by rewrite channelBody_bundles. }
  assert (∀ pkg name b, bundleAt (catalogIndex s2) pkg name = Some b →
            b ∈ elems (Bundles (startCatalog f h p))
            ∧ Bundle_Package b = pkg ∧ Bundle_Name b = name) as Hat2.
  { intros pkg name b. unfold bundleAt. rewrite Hidx2, Hidx1. apply Hat. }
  unfold viewOf. rewrite load_commit. cbn [V_Bundles].
  unfold rebuildBundles. destruct (decide _) as [_|_]; [|by rewrite Hbundles; auto].
  match goal with |- context [filterDeprecations ?t] =>
    destruct (filterDeprecations_frame t) as (_ & _ & -> & _)
  end.
  simpl. split.
  - right. apply rebuilt_bundles_sorted.
    intros pkg name b Hb. by destruct (Hat2 _ _ _ Hb) as (_ & ? & ?).
  - intros b Hb. unfold SortFunc in Hb. rewrite merge_sort_Permutation in Hb.
    apply elem_of_keptBundles in Hb as (pkg & names & name & _ & _ & Hb).
    by destruct (Hat2 _ _ _ Hb).
Qed.

End OutputBundles.

(** X14 at work: the example catalog filtered for package [p] alone. *)
Lemma FilterCatalog_bundles_sorted_witness :
  (V_Bundles (viewOf (snd (FilterCatalog Examples.plainFilter (Some 1%positive)
                             Examples.catalog)) 2%positive)
   = elems (Bundles (startCatalog Examples.plainFilter Examples.catalog 1%positive))
   ∨ Sorted bundleBefore
       (V_Bundles (viewOf (snd (FilterCatalog Examples.plainFilter (Some 1%positive)
                                  Examples.catalog)) 2%positive)))
  ∧ ∀ b, b ∈ V_Bundles (viewOf (snd (FilterCatalog Examples.plainFilter (Some 1%positive)
                                       Examples.catalog)) 2%positive) →
         b ∈ elems (Bundles (startCatalog Examples.plainFilter Examples.catalog 1%positive)).
Proof.
  apply (FilterCatalog_bundles_sorted Examples.plainFilter 1%positive 2%positive
           Examples.catalog).
  vm_compute; reflexivity.
Defined.

(** ** FilterCatalog in full *)

Section InFullMode.

Context `{L : Library}.

Lemma channelBody_full_selected (f : mirrorFilter) (j : nat) (s : state)
    (ch : declcfg.Channel) :
  Full (opts f) = true →
  elems (Channels (filteredFBC s)) !! j = Some ch →
  versionRangeOf f ch = "" → selectedOf f ch ≠ [] →
  channelBody f j s = (s, Some errFullWithBundles).
Proof.
  intros HF Hj Hrange Hsel. unfold channelBody. rewrite Hj, HF, Hrange. simpl.
  rewrite bool_decide_eq_true_2; [done|].
  destruct (selectedOf f ch); [done|simpl; lia].
Qed.

(** X15.  In full, when the index is built, every default channel
    reconciles, and the first channel of the pruned catalog that is not
    unconstrained has no version range in effect but belongs to a package
    with selected bundles, the call fails with "Full: true cannot be mixed
    with filtering by bundle selection". *)
Theorem FilterCatalog_full_with_bundles
    (f : mirrorFilter) (p : loc) (h : heap) (index : operatorIndex)
    (pre post : list declcfg.Channel) (ch : declcfg.Channel) :
  Full (opts f) = true →
  indexFromDeclCfg (entries h) (startCatalog f h p) = Ok index →
  defaultsReconcile f index (startCatalog f h p) →
  elems (Channels (startCatalog f h p)) = pre ++ ch :: post →
  Forall (unconstrained f) pre →
  versionRangeOf f ch = "" → selectedOf f ch ≠ [] →
  fst (FilterCatalog f (Some p) h) = (None, Some errFullWithBundles).
Proof.
  intros HF Hindex Hdef Hchs Hpre Hrange Hsel.
  rewrite FilterCatalog_unfold. cbv zeta. rewrite Hindex.
  destruct (packagesLoop_full f (initialState f h p index) HF Hdef)
    as (s1 & -> & Hch1 & _).
  unfold channelsLoop. rewrite Hch1. simpl. rewrite Hchs.
  rewrite length_app. simpl. rewrite forRange_split.
  destruct (channels_full_prefix f s1 (length pre) HF)
    as (s2 & -> & Hfbc2 & _).
  { intros j c Hj Hc. rewrite Hch1 in Hc. simpl in Hc. rewrite Hchs in Hc.
    rewrite lookup_app_l in Hc by done.
    eapply Forall_lookup_1; eauto. }
  { rewrite Hch1. simpl. rewrite Hchs, length_app. lia. }
  simpl.
  rewrite (channelBody_full_selected f (length pre) s2 ch HF); [done| |done|done].
  rewrite Hfbc2, Hch1. simpl. rewrite Hchs.
  by rewrite list_lookup_middle.
Qed.

(** In full, an iteration of the channel loop that succeeds writes
    [keepBundles] only. *)
Lemma channelBody_full_succeeds (f : mirrorFilter) (j : nat) (s s' : state) :
  Full (opts f) = true →
  channelBody f j s = (s', None) →
  filteredFBC s' = filteredFBC s ∧ chanEntries s' = chanEntries s.
Proof.
  intros HF. unfold channelBody. rewrite HF. simpl.
  destruct (elems (Channels (filteredFBC s)) !! j) as [ch|]; [|by intros [= <-]].
  destruct (bool_decide (versionRangeOf f ch ≠ "")); [done|].
  destruct (bool_decide (0 < length (selectedOf f ch))); [done|]. simpl.
  by intros [= <-].
Qed.

(** X16.  In full, a call that succeeds returns the channels of the pruned
    catalog, one for one and in the same order, each with all its entries,
    and writes no array of channel entries. *)
Theorem FilterCatalog_full_keeps_channels (f : mirrorFilter) (p q : loc) (h : heap) :
  Full (opts f) = true →
  fst (FilterCatalog f (Some p) h) = (Some q, None) →
  V_Channels (viewOf (snd (FilterCatalog f (Some p) h)) q)
  = map (loadChannel (entries h)) (elems (Channels (startCatalog f h p)))
  ∧ entries (snd (FilterCatalog f (Some p) h)) = entries h.
Proof.
  intros HF Hok.
  destruct (FilterCatalog_succeeds_inv f p q h Hok)
    as (index & s1 & s2 & Hindex & H1 & H2 & _ & ->).
  pose proof (forRange_preserves (packageBody f)
                (λ t, Channels (filteredFBC t) = Channels (startCatalog f h p)
                      ∧ chanEntries t = entries h)
                (length (elems (Packages (startCatalog f h p)))) 0
                (initialState f h p index) (conj eq_refl eq_refl)) as Hp1.
  unfold packagesLoop in H1. simpl in H1. rewrite H1 in Hp1. simpl in Hp1.
  destruct Hp1 as [Hc1 He1].
  { intros j t [Hc He].
    destruct (packageBody_full f j t HF) as (-> & _ & _ & _ & _ & -> & _). done. }
  pose proof (forRange_invariant (channelBody f)
                (λ _ t, filteredFBC t = filteredFBC s1 ∧ chanEntries t = chanEntries s1)
                (length (elems (Channels (filteredFBC s1)))) 0 s1 s2
                (conj eq_refl eq_refl)) as Hp2.
  destruct Hp2 as [Hc2 He2]; [|exact H2|].
  { intros j t t' _ [Hc He] Hb.
    destruct (channelBody_full_succeeds f j t t' HF Hb) as [-> ->]. done. }
  destruct (rebuildBundles_frame s2) as (_ & Hc3 & He3).
  unfold viewOf. rewrite load_commit. cbn [V_Channels entries commit].
  by rewrite Hc3, He3, Hc2, He2, Hc1, He1.
Qed.

End InFullMode.

(** X15 at work: bundle [b1] of package [p] selected, in full. *)
Lemma FilterCatalog_full_with_bundles_witness :
  fst (FilterCatalog
         (NewMirrorFilter
            (Examples.config [mkPackageFilter "p" "" "" [] [mkSelectedBundle "b1"]])
            [InFull true])
         (Some 1%positive) Examples.catalog)
  = (None, Some errFullWithBundles).
Proof.
  set (f := NewMirrorFilter
              (Examples.config [mkPackageFilter "p" "" "" [] [mkSelectedBundle "b1"]])
              [InFull true]).
  apply (FilterCatalog_full_with_bundles f 1%positive Examples.catalog
           (orElse (indexFromDeclCfg (entries Examples.catalog)
                      (startCatalog f Examples.catalog 1%positive)) newOperatorIndex)
           [] [mkChannel "ch2" "p" (Some (Slice 2 1))]
           (mkChannel "ch1" "p" (Some (Slice 1 2)))).
  - vm_compute; reflexivity.
  - apply isOk_orElse. vm_compute; reflexivity.
  - intros pkg pkgConfig Hpkg Hcfg.
    assert (elems (Packages (startCatalog f Examples.catalog 1%positive))
            = [mkPackage "p" "ch1" "the package"]) as Hp by (vm_compute; reflexivity).
    rewrite Hp in Hpkg. apply list_elem_of_singleton in Hpkg. subst pkg.
    exists (mkPackage "p" "ch1" "the package").
    assert (pkgConfigs f !! "p"
            = Some (mkPackageFilter "p" "" "" [] [mkSelectedBundle "b1"])) as Hc
      by (vm_compute; reflexivity).
    change (Package_Name (mkPackage "p" "ch1" "the package")) with "p" in Hcfg.
    rewrite Hc in Hcfg. injection Hcfg as <-.
    vm_compute; reflexivity.
  - vm_compute; reflexivity.
  - constructor.
  - vm_compute; reflexivity.
  - vm_compute; discriminate.
Defined.

(** X16 at work: the example catalog filtered in full for package [p]. *)
Lemma FilterCatalog_full_keeps_channels_witness :
  V_Channels
    (viewOf (snd (FilterCatalog
                    (NewMirrorFilter (Examples.config [mkPackageFilter "p" "" "" [] []])
                                     [InFull true])
                    (Some 1%positive) Examples.catalog)) 2%positive)
  = map (loadChannel (entries Examples.catalog))
        (elems (Channels (startCatalog
                            (NewMirrorFilter
                               (Examples.config [mkPackageFilter "p" "" "" [] []])
                               [InFull true])
                            Examples.catalog 1%positive)))
  ∧ entries (snd (FilterCatalog
                    (NewMirrorFilter (Examples.config [mkPackageFilter "p" "" "" [] []])
                                     [InFull true])
                    (Some 1%positive) Examples.catalog))
    = entries Examples.catalog.
Proof.
  apply (FilterCatalog_full_keeps_channels
           (NewMirrorFilter (Examples.config [mkPackageFilter "p" "" "" [] []]) [InFull true])
           1%positive 2%positive Examples.catalog).
  - vm_compute; reflexivity.
  - vm_compute; reflexivity.
Defined.

(** ** FilterCatalog: channels reduced to their heads *)

Section Heads.

Context `{L : Library}.

(** Outside full, an iteration of the channel loop that succeeds on an
    unconstrained channel replaces its entries by a new one-entry array and
    leaves the other channels and the arrays there were. *)
Lemma channelBody_head (f : mirrorFilter) (j : nat) (s s' : state) :
  Full (opts f) = false →
  (∀ ch, unconstrained f ch) →
  j < length (elems (Channels (filteredFBC s))) →
  channelBody f j s = (s', None) →
  length (elems (Channels (filteredFBC s'))) = length (elems (Channels (filteredFBC s)))
  ∧ (∀ k, k ≠ j → elems (Channels (filteredFBC s')) !! k
                   = elems (Channels (filteredFBC s)) !! k)
  ∧ (∀ a l, chanEntries s !! a = Some l → chanEntries s' !! a = Some l)
  ∧ ∃ ch a e, elems (Channels (filteredFBC s')) !! j = Some ch
              ∧ Channel_Entries ch = Some (Slice a 1)
              ∧ chanEntries s' !! a = Some [e].
Proof.
  intros HF Hun Hj. unfold channelBody.
  destruct (lookup_lt_is_Some_2 _ _ Hj) as [ch Hch]. rewrite Hch, HF.
  destruct (Hun ch) as [-> ->]. simpl.
  unfold filterChannelHead. destruct (newChannel _) as [c|e]; [|done].
  intros [= <-]. simpl.
  split; [apply length_elems_setAt|].
  split; [intros k Hk; rewrite elems_setAt; by apply list_lookup_insert_ne|].
  split.
  - intros a l Ha. rewrite lookup_insert_ne; [done|].
    intros Heq. pose proof (is_fresh (dom (chanEntries s))) as Hfresh.
    rewrite Heq in Hfresh. apply Hfresh. apply elem_of_dom. by eexists.
  - eexists _, _, _.
    split; [rewrite elems_setAt; by apply list_lookup_insert_eq|].
    split; [done|]. by rewrite lookup_insert_eq.
Qed.

(** X17.  Outside full, a filter that asks for no version range and selects
    no bundle returns, when it succeeds, channels of one entry each. *)
Theorem FilterCatalog_heads_only (f : mirrorFilter) (p q : loc) (h : heap) :
  Full (opts f) = false →
  plain f →
  fst (FilterCatalog f (Some p) h) = (Some q, None) →
  Forall (λ c, length (View_Entries c) = 1)
         (V_Channels (viewOf (snd (FilterCatalog f (Some p) h)) q)).
Proof.
  intros HF Hplain Hok.
  destruct (FilterCatalog_succeeds_inv f p q h Hok)
    as (index & s1 & s2 & _ & _ & H2 & _ & ->).
  unfold channelsLoop in H2.
  apply (forRange_invariant (channelBody f)
           (λ j t, length (elems (Channels (filteredFBC t)))
                   = length (elems (Channels (filteredFBC s1)))
                   ∧ ∀ k, k < j →
                       ∃ ch a e, elems (Channels (filteredFBC t)) !! k = Some ch
                                 ∧ Channel_Entries ch = Some (Slice a 1)
                                 ∧ chanEntries t !! a = Some [e])) in H2.
  - destruct H2 as [Hlen Hall]. simpl in Hall.
    destruct (rebuildBundles_frame s2) as (_ & Hc3 & He3).
    unfold viewOf. rewrite load_commit. cbn [V_Channels entries commit].
    rewrite Hc3, He3. apply Forall_forall. intros c Hc.
    apply list_elem_of_fmap in Hc as (ch & -> & Hch).
    apply list_elem_of_lookup_1 in Hch as [k Hk].
    destruct (Hall k) as (ch' & a & e & Hk' & Hsl & Ha).
    { rewrite <- Hlen. by eapply lookup_lt_Some. }
    rewrite Hk in Hk'. injection Hk' as <-.
    unfold loadChannel, readSlice. cbn [View_Entries]. rewrite Hsl. cbn [arr len]. by rewrite Ha.
  - split; [done|]. intros k Hk. lia.
  - intros j t t' Hj [Hlen Hall] Hb.
    destruct (channelBody_head f j t t' HF) as (Hlen' & Hother & Hstore & Hnew);
      [by intros ch; apply plain_unconstrained|lia|done|].
    split; [congruence|].
    intros k Hk. destruct (decide (k = j)) as [->|Hne]; [done|].
    destruct (Hall k) as (ch & a & e & Hk' & Hsl & Ha); [lia|].
    exists ch, a, e. rewrite Hother by done. auto.
Qed.

End Heads.

(** X17 at work: the example catalog filtered for package [p] alone. *)
Lemma FilterCatalog_heads_only_witness :
  Forall (λ c, length (View_Entries c) = 1)
         (V_Channels (viewOf (snd (FilterCatalog Examples.plainFilter (Some 1%positive)
                                     Examples.catalog)) 2%positive)).
Proof.
  apply (FilterCatalog_heads_only Examples.plainFilter 1%positive 2%positive Examples.catalog).
  - vm_compute; reflexivity.
  - split.
    + intros name pkgConfig Hcfg.
      destruct (decide (name = "p")) as [->|Hne].
      * vm_compute in Hcfg. by injection Hcfg as <-.
      * exfalso. revert Hcfg. unfold Examples.plainFilter, NewMirrorFilter. simpl.
        by rewrite lookup_insert_ne, lookup_empty.
    + intros name channels ch channel Hm Hc.
      destruct (decide (name = "p")) as [->|Hne].
      * exfalso. revert Hm Hc. unfold Examples.plainFilter, NewMirrorFilter. simpl.
        rewrite lookup_insert_eq. intros [= <-]. by rewrite lookup_empty.
      * exfalso. revert Hm. unfold Examples.plainFilter, NewMirrorFilter. simpl.
        by rewrite lookup_insert_ne, lookup_empty.
  - vm_compute; reflexivity.
Defined.

(** ** keepPackageDefaultChannel *)

Section ChannelOrder.

Lemma string_compare_le_trans (a b c : string) :
  String.compare a b ≠ Gt → String.compare b c ≠ Gt → String.compare a c ≠ Gt.
Proof.
  intros H1 H2.
  destruct (String.compare a b) eqn:Hab; [|clear H1|done].
  - apply String.compare_eq_iff in Hab as ->. done.
  - destruct (String.compare b c) eqn:Hbc; [| |done].
    + apply String.compare_eq_iff in Hbc as <-. by rewrite Hab.
    + by rewrite (string_compare_lt_trans a b c).
Qed.

Lemma compareChannels_eq (a b : declcfg.Channel) :
  compareChannels a b = Eq ↔
  Channel_Package a = Channel_Package b ∧ Channel_Name a = Channel_Name b.
Proof.
  unfold compareChannels. split.
  - destruct (String.compare (Channel_Package a) (Channel_Package b)) eqn:Hp; try done.
    intros Hn. by split; apply String.compare_eq_iff.
  - intros [-> ->]. by rewrite !string_compare_refl.
Qed.

(** [compareChannels] looks at the package and the name only. *)
Lemma compareChannels_same_key (a b c : declcfg.Channel) :
  compareChannels b c = Eq → compareChannels a b = compareChannels a c.
Proof.
  intros [Hp Hn]%compareChannels_eq. unfold compareChannels. by rewrite Hp, Hn.
Qed.

Lemma channelNotAfter_iff (a b : declcfg.Channel) :
  channelNotAfter a b ↔
  String.compare (Channel_Package a) (Channel_Package b) = Lt
  ∨ (Channel_Package a = Channel_Package b
     ∧ String.compare (Channel_Name a) (Channel_Name b) ≠ Gt).
Proof.
  unfold channelNotAfter, compareChannels.
  destruct (String.compare (Channel_Package a) (Channel_Package b)) eqn:Hp.
  - apply String.compare_eq_iff in Hp. split; [by right|]. by intros [|[_ ?]].
  - split; [by left|done].
  - split; [done|]. intros [|[Heq _]]; [done|].
    rewrite Heq, string_compare_refl in Hp. done.
Qed.

#[local] Instance channelNotAfter_trans : Transitive channelNotAfter.
Proof.
  intros a b c. rewrite !channelNotAfter_iff.
  intros [H1|[E1 H1]] [H2|[E2 H2]].
  - left. by eapply string_compare_lt_trans.
  - left. by rewrite <- E2.
  - left. by rewrite E1.
  - right. split; [congruence|]. by eapply string_compare_le_trans.
Qed.

#[local] Instance channelNotAfter_total : Total channelNotAfter.
Proof.
  intros a b. unfold channelNotAfter, compareChannels.
  rewrite (String.compare_antisym (Channel_Package a) (Channel_Package b)).
  rewrite (String.compare_antisym (Channel_Name a) (Channel_Name b)).
  destruct (String.compare (Channel_Package b) (Channel_Package a)); simpl;
    [|by right|by left].
  destruct (String.compare (Channel_Name b) (Channel_Name a)); simpl;
    [by left|by right|by left].
Qed.

(** The search finds a channel of a sorted list exactly when the list has
    one that compares equal to the target, and then answers with the position
    of such a channel. *)
Lemma BinarySearchFunc_sorted (l : list declcfg.Channel) (target : declcfg.Channel) :
  Sorted channelNotAfter l →
  (snd (BinarySearchFunc l target compareChannels) = true
   ↔ ∃ ch, ch ∈ l ∧ compareChannels ch target = Eq)
  ∧ (snd (BinarySearchFunc l target compareChannels) = true →
     ∃ ch, l !! fst (BinarySearchFunc l target compareChannels) = Some ch
           ∧ compareChannels ch target = Eq).
Proof.
  intros Hs. apply Sorted_StronglySorted in Hs; [|apply _].
  induction Hs as [|e l Hl [IH1 IH2] He]; simpl.
  - split; [|done]. split; [done|]. intros (ch & Hch & _). by apply elem_of_nil in Hch.
  - destruct (compareChannels e target) eqn:Hc.
    + simpl. split; [|by exists e]. split; [|done]. intros _. exists e. split; [by left|done].
    + destruct (BinarySearchFunc l target compareChannels) as [i found]. simpl in *.
      split; [|done]. rewrite IH1. split.
      * intros (ch & Hch & Heq). exists ch. split; [by right|done].
      * intros (ch & Hch & Heq). apply elem_of_cons in Hch as [->|Hch]; [congruence|].
        by exists ch.
    + simpl. split; [|done]. split; [done|].
      intros (ch & Hch & Heq). apply elem_of_cons in Hch as [->|Hch]; [congruence|].
      rewrite Forall_forall in He. specialize (He ch Hch). unfold channelNotAfter in He.
      by rewrite (compareChannels_same_key e ch target Heq), Hc in He.
Qed.

End ChannelOrder.

Section KeepDefault.

Context `{L : Library}.

(** The channels [keepPackageDefaultChannel] searches: those of the index for
    the package, sorted. *)
Lemma sorted_indexed_channels (s : state) (pkg : declcfg.Package) :
  default [] (alter (SortFunc compareChannels) (Package_Name pkg)
                    (Index_Channels (catalogIndex s)) !! Package_Name pkg)
  = SortFunc compareChannels (indexedChannels s pkg).
Proof.
  unfold indexedChannels. rewrite lookup_alter_eq.
  by destruct (Index_Channels (catalogIndex s) !! Package_Name pkg).
Qed.

Lemma SortFunc_channels (l : list declcfg.Channel) :
  Sorted channelNotAfter (SortFunc compareChannels l) ∧ SortFunc compareChannels l ≡ₚ l.
Proof.
  unfold SortFunc. split.
  - apply (@Sorted_merge_sort _ channelNotAfter _ channelNotAfter_total).
  - apply merge_sort_Permutation.
Qed.

(** The search of [keepPackageDefaultChannel], read on the channels of the
    index. *)
Lemma default_channel_search (s : state) (pkg : declcfg.Package) :
  let found :=
    BinarySearchFunc (SortFunc compareChannels (indexedChannels s pkg))
      (mkChannel (Package_DefaultChannel pkg) (Package_Name pkg) None) compareChannels in
  (snd found = true ↔ ∃ ch, ch ∈ indexedChannels s pkg ∧ isDefaultOf pkg ch)
  ∧ (snd found = true →
     ∃ ch, SortFunc compareChannels (indexedChannels s pkg) !! fst found = Some ch
           ∧ isDefaultOf pkg ch).
Proof.
  cbv zeta. destruct (SortFunc_channels (indexedChannels s pkg)) as [Hsorted Hperm].
  destruct (BinarySearchFunc_sorted _
              (mkChannel (Package_DefaultChannel pkg) (Package_Name pkg) None) Hsorted)
    as [H1 H2].
  split.
  - rewrite H1. split.
    + intros (ch & Hch & Heq). exists ch. rewrite Hperm in Hch.
      apply compareChannels_eq in Heq as [? ?]. by repeat split.
    + intros (ch & Hch & Hp & Hn). exists ch. rewrite Hperm. split; [done|].
      by apply compareChannels_eq.
  - intros Hf. destruct (H2 Hf) as (ch & Hch & Heq). exists ch. split; [done|].
    apply compareChannels_eq in Heq as [? ?]. by split.
Qed.

(** X18.  [keepPackageDefaultChannel] succeeds exactly when the index holds,
    for the package, a channel with the name of its default channel, and
    fails otherwise with "default channel ... not found for package ...".
    When it succeeds on a catalog whose channel list is not nil, what it
    deletes from the list are the channels of the package other than its
    default channel: the other channels stay, in their order. *)
Theorem keepPackageDefaultChannel_outcome (s : state) (pkg : declcfg.Package) :
  (snd (keepPackageDefaultChannel s pkg) = None
   ↔ ∃ ch, ch ∈ indexedChannels s pkg ∧ isDefaultOf pkg ch)
  ∧ (∀ e, snd (keepPackageDefaultChannel s pkg) = Some e → e = errDefaultNotFound pkg)
  ∧ (∀ l, snd (keepPackageDefaultChannel s pkg) = None →
          Channels (filteredFBC s) = Some l →
          Channels (filteredFBC (fst (keepPackageDefaultChannel s pkg)))
          = Some (List.filter (keptByDefault pkg) l)).
Proof.
  pose proof (default_channel_search s pkg) as [Hiff Hat]. cbv zeta in Hiff, Hat.
  unfold keepPackageDefaultChannel. cbn [catalogIndex withIndexChannels Index_Channels].
  rewrite sorted_indexed_channels.
  destruct (BinarySearchFunc _ _ _) as [channelIndex exists_]. simpl in Hiff, Hat.
  destruct exists_.
  - destruct (Hat eq_refl) as (found & Hfound & Hpk & Hname).
    cbn [filteredFBC withIndexChannels].
    destruct (Channels (filteredFBC s)) as [l0|] eqn:Hl0.
    + rewrite decide_False by (apply lookup_lt_Some in Hfound; lia).
      cbn [fst snd]. split; [by rewrite <- Hiff|]. split; [done|].
      intros l _ [= <-]. cbn [filteredFBC withFBC Channels setChannels].
      cbn [DeleteFuncV]. f_equal. rewrite Hfound. cbn [default from_option id].
      apply filter_ext. intros ch. unfold keptByDefault. rewrite Hname.
      destruct (decide (Channel_Package ch = Package_Name pkg)) as [Hp|Hp].
      * rewrite (bool_decide_eq_true_2 _ Hp). simpl.
        destruct (decide (Channel_Name ch = Package_DefaultChannel pkg)) as [Hn|Hn].
        -- rewrite (bool_decide_eq_true_2 _ Hn). by rewrite bool_decide_eq_false_2 by auto.
        -- rewrite (bool_decide_eq_false_2 _ Hn). by rewrite bool_decide_eq_true_2.
      * by rewrite (bool_decide_eq_false_2 _ Hp).
    + cbn [fst snd]. split; [by rewrite <- Hiff|]. split; done.
  - cbn [fst snd]. split; [|split; [by intros e [= <-]|done]].
    split; [done|]. intros Hex. apply Hiff in Hex. done.
Qed.

End KeepDefault.

(** ** Validate *)

Section Validated.

Context `{L : Library}.

Lemma when_nil (b : bool) (e : error) : when b e = [] ↔ b = false.
Proof. by destruct b. Qed.

Lemma concat_imap_nil {A B : Type} (l : list A) :
  ∀ g : nat → A → list B,
    concat (imap g l) = [] ↔ ∀ i x, l !! i = Some x → g i x = [].
Proof.
  induction l as [|a l IH]; intros g; simpl.
  - split; [|done]. by intros _ i x.
  - split.
    + intros [Ha Hl]%app_eq_nil. intros [|i] x; simpl.
      * by intros [= <-].
      * intros Hi. by apply (proj1 (IH (g ∘ S)) Hl i x).
    + intros Hall. rewrite (Hall 0 a eq_refl). simpl.
      apply IH. intros i x Hi. by apply (Hall (S i)).
Qed.

Lemma length_pos_iff {A : Type} (l : list A) :
  bool_decide (0 < length l) = true ↔ l ≠ [].
Proof.
  rewrite bool_decide_eq_true. destruct l; simpl; split; try done; lia.
Qed.

Lemma constraint_checked (versionRange : string) (mk : error → error) :
  (if bool_decide (versionRange ≠ "") then
     match constraintError versionRange with
     | Some err => [mk err]
     | None => []
     end
   else []) = []
  ↔ (versionRange ≠ "" → isOk (NewConstraint versionRange) = true).
Proof.
  unfold constraintError.
  destruct (decide (versionRange = "")) as [->|Hne].
  - rewrite bool_decide_eq_false_2 by auto. by split.
  - rewrite bool_decide_eq_true_2 by done.
    destruct (NewConstraint versionRange); simpl; split; try done.
    intros H. by specialize (H Hne).
Qed.

Lemma validateChannel_nil (pkg : Package) (i j : nat) (channel : Channel) :
  validateChannel pkg i j channel = [] ↔ validChannel pkg channel.
Proof.
  unfold validateChannel, validChannel.
  rewrite !app_nil, !when_nil, constraint_checked.
  rewrite bool_decide_eq_false, andb_false_iff, !bool_decide_eq_false.
  split.
  - intros (Hn & Hx & Hc). split; [done|]. split; [|done]. intros [? ?]. by destruct Hx.
  - intros (Hn & Hx & Hc). split; [done|]. split; [|done].
    destruct (decide (Ch_VersionRange channel ≠ "")) as [Hr|Hr]; [|by left].
    right. intros Hp. by apply Hx.
Qed.

Lemma validatePackage_nil (i : nat) (pkg : Package) :
  validatePackage i pkg = [] ↔ validPackage pkg.
Proof.
  unfold validatePackage, validPackage.
  rewrite !app_nil, !when_nil, constraint_checked, concat_imap_nil.
  rewrite bool_decide_eq_false.
  assert ((∀ j channel, Pkg_Channels pkg !! j = Some channel →
             validateChannel pkg i j channel = [])
          ↔ Forall (validChannel pkg) (Pkg_Channels pkg)) as ->.
  { rewrite Forall_lookup.
    split; intros H j c Hj; apply (validateChannel_nil pkg i j); by apply (H j c Hj). }
  assert (bool_decide (0 < length (Pkg_SelectedBundles pkg))
          && (bool_decide (0 < length (Pkg_Channels pkg))
              || bool_decide (Pkg_VersionRange pkg ≠ "")) = false
          ↔ ¬ (Pkg_SelectedBundles pkg ≠ []
               ∧ (Pkg_Channels pkg ≠ [] ∨ Pkg_VersionRange pkg ≠ ""))) as ->; [|done].
  rewrite <- not_true_iff_false, andb_true_iff, orb_true_iff.
  by rewrite !length_pos_iff, bool_decide_eq_true.
Qed.

(** The configurations [Validate] has nothing to say about. *)
Lemma Validate_nil (f : FilterConfiguration) :
  Validate f = [] ↔
  APIVersion f = FilterAPIVersion ∧ Kind f = FilterKind
  ∧ Forall validPackage (Config_Packages f).
Proof.
  unfold Validate. rewrite !app_nil, !when_nil, concat_imap_nil.
  rewrite !bool_decide_eq_false.
  assert ((∀ i pkg, Config_Packages f !! i = Some pkg → validatePackage i pkg = [])
          ↔ Forall validPackage (Config_Packages f)) as ->.
  { rewrite Forall_lookup.
    split; intros H i pkg Hi; apply (validatePackage_nil i); by apply (H i pkg Hi). }
  split; intros (Ha & Hk & Hp); repeat split; try done.
  - by destruct (decide (APIVersion f = FilterAPIVersion)).
  - by destruct (decide (Kind f = FilterKind)).
  - by intros ?.
  - by intros ?.
Qed.

(** X19.  [Validate] reports nothing exactly when the API version and the
    kind are the expected ones and every package filter has a name, does not
    mix selected bundles with channels or a version range, has a version
    range that parses if it has one, and lists channel filters that each
    have a name, a version range only if the package has none, and one that
    parses. *)
Theorem Validate_accepts_iff (f : FilterConfiguration) :
  Validate f = [] ↔
  APIVersion f = FilterAPIVersion ∧ Kind f = FilterKind
  ∧ Forall validPackage (Config_Packages f).
Proof. apply Validate_nil. Qed.

End Validated.

(** ** Validate and the conflicts of FilterCatalog *)

Section NoConflict.

Context `{L : Library}.

Lemma unique_name_filter (l : list Package) (name : string) (cfg : Package) :
  NoDup (map Pkg_Name l) →
  last (List.filter (λ pkg, bool_decide (Pkg_Name pkg = name)) l) = Some cfg →
  List.filter (λ pkg, bool_decide (Pkg_Name pkg = name)) l = [cfg] ∧ cfg ∈ l.
Proof.
  induction l as [|a l IH]; simpl; [done|].
  intros [Hnin Hnd]%NoDup_cons.
  destruct (decide (Pkg_Name a = name)) as [<-|Hne].
  - rewrite bool_decide_eq_true_2 by done.
    assert (List.filter (λ pkg, bool_decide (Pkg_Name pkg = Pkg_Name a)) l = []) as ->.
    { destruct (List.filter _ l) as [|b k] eqn:Hf; [done|]. exfalso.
      assert (In b (List.filter (λ pkg, bool_decide (Pkg_Name pkg = Pkg_Name a)) l)) as Hb
        by (rewrite Hf; by left).
      apply filter_In in Hb as [Hb Hn]. apply bool_decide_eq_true_1 in Hn.
      apply Hnin. rewrite <- Hn. apply list_elem_of_fmap. exists b.
      split; [done|by apply list_elem_of_In]. }
    simpl. intros [= <-]. split; [done|by left].
  - rewrite bool_decide_eq_false_2 by done. intros Hl.
    destruct (IH Hnd Hl) as [? ?]. split; [done|by right].
Qed.

(** X20.  For the filter of a configuration that [Validate] accepts and that
    names no package twice, no channel meets both a selection of bundles and
    a version range: the conflict "filtering by versionRange cannot be mixed
    with filtering by bundle selection" has no channel to arise on. *)
Theorem valid_configuration_no_conflict (config : FilterConfiguration)
    (filterOpts : list FilterOption) (ch : declcfg.Channel) :
  Validate config = [] →
  NoDup (map Pkg_Name (Config_Packages config)) →
  selectedOf (NewMirrorFilter config filterOpts) ch = []
  ∨ versionRangeOf (NewMirrorFilter config filterOpts) ch = "".
Proof.
  intros Hvalid Hnd. apply Validate_nil in Hvalid as (_ & _ & Hpkgs).
  destruct (NewMirrorFilter_lookup config filterOpts (Channel_Package ch)) as (Hpk & _ & Hch).
  unfold selectedOf, versionRangeOf, pkgConfigOf, chConfigOf. rewrite Hpk, Hch.
  destruct (last (packagesNamed config (Channel_Package ch))) as [cfg|] eqn:Hlast;
    [|by left].
  destruct (unique_name_filter _ _ _ Hnd Hlast) as [Hone Hin]. simpl.
  destruct (Pkg_SelectedBundles cfg) as [|b bs] eqn:Hsel; [by left|right].
  rewrite Forall_forall in Hpkgs. destruct (Hpkgs cfg Hin) as (_ & Hmix & _).
  rewrite Hsel in Hmix.
  assert (Pkg_Channels cfg = [] ∧ Pkg_VersionRange cfg = "") as [Hc Hr].
  { split.
    - destruct (Pkg_Channels cfg); [done|]. destruct Hmix. split; [done|by left].
    - destruct (decide (Pkg_VersionRange cfg = "")); [done|].
      destruct Hmix. split; [done|by right]. }
  unfold channelFiltersNamed, packagesNamed in *. rewrite Hone. simpl. rewrite Hc, Hr. done.
Qed.

End NoConflict.

(** X20 at work: bundles [b1] and [b3] of package [p] selected. *)
Lemma valid_configuration_no_conflict_witness :
  selectedOf Examples.selectFilter (mkChannel "ch1" "p" (Some (Slice 1 2))) = []
  ∨ versionRangeOf Examples.selectFilter (mkChannel "ch1" "p" (Some (Slice 1 2))) = "".
Proof.
  apply (valid_configuration_no_conflict
           (Examples.config
              [mkPackageFilter "p" "" "" [] [mkSelectedBundle "b1"; mkSelectedBundle "b3"]])
           [] (mkChannel "ch1" "p" (Some (Slice 1 2)))).
  - vm_compute; reflexivity.
  - simpl. apply NoDup_singleton.
Defined.

(** ** The manifest front end *)

Section Manifest.

Lemma fold_left_snoc_map {A B : Type} (g : A → B) (l : list A) :
  ∀ acc, fold_left (λ acc x, acc ++ [g x]) l acc = acc ++ map g l.
Proof.
  induction l as [|x l IH]; intros acc; simpl; [by rewrite app_nil_r|].
  by rewrite IH, <- app_assoc.
Qed.

Lemma versionRangeFrom_empty (minVersion maxVersion : string) :
  versionRangeFrom minVersion maxVersion = "" ↔ minVersion = "" ∧ maxVersion = "".
Proof.
  unfold versionRangeFrom.
  destruct (decide (minVersion ≠ "")) as [Hmin|Hmin];
    destruct (decide (maxVersion ≠ "")) as [Hmax|Hmax]; simpl.
  - split; [done|]. by intros [? _].
  - split; [done|]. by intros [? _].
  - destruct (decide (minVersion = "")) as [->|]; [|done]. simpl.
    split; [done|]. by intros [_ ?].
  - destruct (decide (minVersion = "")) as [->|]; [|done].
    destruct (decide (maxVersion = "")) as [->|]; [|done]. done.
Qed.

Lemma packageFilterFrom_channels (op : IncludePackage) :
  Pkg_Channels (packageFilterFrom op) = map channelFilterFrom (IncludePackage_Channels op).
Proof. unfold packageFilterFrom. simpl. by rewrite fold_left_snoc_map. Qed.

Lemma filterFromImageSetConfig_packages (isc : Operator) :
  Config_Packages (filterFromImageSetConfig isc)
  = map packageFilterFrom (Operator_Packages isc).
Proof. unfold filterFromImageSetConfig. simpl. by rewrite fold_left_snoc_map. Qed.

(** X21.  The configuration made of the operator section of an image set
    configuration has one package filter per package, in the same order,
    with its name, its default channel, no selected bundle, a version range
    that is empty exactly when the package gives neither a minimum nor a
    maximum version, and one channel filter per channel, in the same order,
    with its name and a version range that is empty exactly when the channel
    gives neither. *)
Theorem filterFromImageSetConfig_shape (isc : Operator) :
  Forall2
    (λ op pkg,
       Pkg_Name pkg = IncludePackage_Name op
       ∧ Pkg_DefaultChannel pkg = IncludePackage_DefaultChannel op
       ∧ Pkg_SelectedBundles pkg = []
       ∧ (Pkg_VersionRange pkg = ""
          ↔ IncludePackage_MinVersion op = "" ∧ IncludePackage_MaxVersion op = "")
       ∧ Forall2
           (λ ch channel,
              Ch_Name channel = IncludeChannel_Name ch
              ∧ (Ch_VersionRange channel = ""
                 ↔ IncludeChannel_MinVersion ch = "" ∧ IncludeChannel_MaxVersion ch = ""))
           (IncludePackage_Channels op) (Pkg_Channels pkg))
    (Operator_Packages isc) (Config_Packages (filterFromImageSetConfig isc)).
Proof.
  rewrite filterFromImageSetConfig_packages.
  apply Forall2_fmap_r, Forall_Forall2_diag, Forall_forall. intros op _. unfold compose.
  rewrite packageFilterFrom_channels.
  split; [done|]. split; [done|]. split; [done|].
  split; [apply versionRangeFrom_empty|].
  apply Forall2_fmap_r, Forall_Forall2_diag, Forall_forall. intros ch _. unfold compose.
  split; [done|]. apply versionRangeFrom_empty.
Qed.

(** X22.  The filter the manifest builds is in full exactly when the
    operator section says so, and selects no bundle, whatever the channel:
    of the three conflicts between modes, only "Full: true cannot be mixed
    with versionRange" has a channel to arise on. *)
Theorem manifestFilter_never_selects `{L : Library} (isc : Operator) (ch : declcfg.Channel) :
  Full (opts (manifestFilter isc)) = Operator_Full isc
  ∧ selectedOf (manifestFilter isc) ch = [].
Proof.
  unfold manifestFilter. split; [by rewrite NewMirrorFilter_opts|].
  destruct (NewMirrorFilter_lookup (filterFromImageSetConfig isc)
              [InFull (Operator_Full isc)] (Channel_Package ch)) as (Hpk & _).
  unfold selectedOf, pkgConfigOf. rewrite Hpk.
  destruct (last _) as [cfg|] eqn:Hlast; [|done]. simpl.
  apply last_Some_elem_of in Hlast. apply list_elem_of_In in Hlast.
  unfold packagesNamed in Hlast. apply filter_In in Hlast as [Hin _].
  rewrite filterFromImageSetConfig_packages in Hin.
  apply in_map_iff in Hin as (op & <- & _). done.
Qed.

End Manifest.

(** ** filterDeprecations *)

Section PrunedDeprecations.

Context `{L : Library}.




End PrunedDeprecations.


(** ** The options of a filter *)

(** X24.  A filter is not in full unless an option says so; of several
    [InFull] options the last one decides; and [WithLogger] leaves the mode
    as it is. *)
Theorem NewMirrorFilter_full (config : FilterConfiguration) (filterOpts : list FilterOption)
    (full : bool) :
  Full (opts (NewMirrorFilter config [])) = false
  ∧ Full (opts (NewMirrorFilter config (filterOpts ++ [InFull full]))) = full
  ∧ Full (opts (NewMirrorFilter config (filterOpts ++ [WithLogger])))
    = Full (opts (NewMirrorFilter config filterOpts)).
Proof.
  rewrite !NewMirrorFilter_opts, !fold_left_app. done.
Qed.
